(** * openapi-to-mcp: extraction, operation-id synthesis, tool mapping, emission

    A shallow embedding of [src/parser.ts], [src/mapper.ts], the entry
    point and the environment template of [src/generator.ts] and [slugify]
    of [src/cli.ts], followed by the properties of the specification that
    concern them and by further properties read off the sources.

    Conventions of the model.
    - A JavaScript string is a [string] (a sequence of 8-bit characters);
      [toUpperCase] and [toLowerCase] act on the ASCII letters and leave every
      other character alone.
    - A JavaScript object whose key order is observable ([Object.entries],
      [Object.keys]) is an association list in the order [Object.entries]
      yields, which is the declaration order for keys that are not array
      indices (path templates and media types never are); an object used
      only through lookups is a [gmap]; a [Set] of strings is a [gset].
    - An optional field ([x?: T]) is an [option]; the truthiness tests of the
      source ([a || b], [if (!x)], [x && y]) are written out. *)

From Stdlib Require Import ZArith Ascii.
From stdpp Require Import base option list strings gmap.

Local Open Scope string_scope.
Local Open Scope list_scope.

(** ** JavaScript string primitives used by the sources *)

Module Js.

Definition is_lower (c : ascii) : bool :=
  (97 <=? nat_of_ascii c)%nat && (nat_of_ascii c <=? 122)%nat.

Definition is_upper (c : ascii) : bool :=
  (65 <=? nat_of_ascii c)%nat && (nat_of_ascii c <=? 90)%nat.

Definition upper_char (c : ascii) : ascii :=
  if is_lower c then ascii_of_nat (nat_of_ascii c - 32) else c.

Definition lower_char (c : ascii) : ascii :=
  if is_upper c then ascii_of_nat (nat_of_ascii c + 32) else c.

(** [s.toUpperCase()] *)
Fixpoint toUpperCase (s : string) : string :=
  match s with
  | EmptyString => EmptyString
  | String c r => String (upper_char c) (toUpperCase r)
  end.

(** [s.toLowerCase()] *)
Fixpoint toLowerCase (s : string) : string :=
  match s with
  | EmptyString => EmptyString
  | String c r => String (lower_char c) (toLowerCase r)
  end.

(** [s.split(sep)] for a one-character separator: never empty, and
    [''.split('/')] is [['']]. *)
Fixpoint split (sep : ascii) (s : string) : list string :=
  match s with
  | EmptyString => [EmptyString]
  | String c r =>
      if Ascii.eqb c sep then EmptyString :: split sep r
      else match split sep r with
           | [] => [String c EmptyString]
           | w :: ws => String c w :: ws
           end
  end.

(** [Boolean(s)] on a string: the empty string is the only falsy one. *)
Definition truthy (s : string) : bool :=
  match s with EmptyString => false | String _ _ => true end.

(** [parts.join('')] *)
Definition join (parts : list string) : string :=
  fold_right String.append EmptyString parts.

(** [s.charAt(i)]: the one-character string at [i], or [''] out of range. *)
Definition charAt (s : string) (i : nat) : string :=
  match String.get i s with
  | Some c => String c EmptyString
  | None => EmptyString
  end.

(** The index clamping of [String.prototype.slice]: a negative index counts
    from the end, and everything is clamped to [0 .. len]. *)
Definition clamp (len i : Z) : Z :=
  if (i <? 0)%Z then Z.max (len + i) 0 else Z.min i len.

(** [s.slice(b, e)] *)
Definition slice (s : string) (b e : Z) : string :=
  let len := Z.of_nat (String.length s) in
  let from := clamp len b in
  let to := clamp len e in
  String.substring (Z.to_nat from) (Z.to_nat (to - from)) s.

(** [s.slice(b)] *)
Definition slice_from (s : string) (b : Z) : string :=
  slice s b (Z.of_nat (String.length s)).

(** [s.startsWith(p)] *)
Definition startsWith (s p : string) : bool := String.prefix p s.

(** [s.endsWith(p)] *)
Definition endsWith (s p : string) : bool :=
  let n := String.length s in
  let m := String.length p in
  if (m <=? n)%nat then String.eqb (String.substring (n - m) m s) p else false.

(** [a || b] where [a] is an optional string: [undefined] and [''] are falsy. *)
Definition or_string (a : option string) (b : string) : string :=
  match a with
  | Some s => if truthy s then s else b
  | None => b
  end.

(** [a || false] where [a] is an optional boolean. *)
Definition or_false (a : option bool) : bool :=
  match a with Some b => b | None => false end.

(** [arr.push(x)] *)
Definition push {A} (arr : list A) (x : A) : list A := arr ++ [x].

(** JSON-like values held by schema objects. *)
#[local] Set Warnings "-register-all".
Inductive Value : Type :=
| Undefined
| Null
| Bool (b : bool)
| Num (z : Z)
| Str (s : string)
| Arr (items : list Value)
| Obj (entries : list (string * Value)).
#[local] Set Warnings "register-all".

(** [o[k]] on an object given by its entries; [None] when [k] is not a key. *)
Fixpoint obj_get {V} (o : list (string * V)) (k : string) : option V :=
  match o with
  | [] => None
  | (k', v) :: r => if String.eqb k' k then Some v else obj_get r k
  end.

(** [o[k] = v]: an existing key keeps its position, a new key goes last. *)
Fixpoint obj_set {V} (o : list (string * V)) (k : string) (v : V) : list (string * V) :=
  match o with
  | [] => [(k, v)]
  | (k', v') :: r =>
      if String.eqb k' k then (k, v) :: r else (k', v') :: obj_set r k v
  end.

(** [Object.keys(o)] *)
Definition keys {V} (o : list (string * V)) : list string := map fst o.

End Js.

(** ** types.ts: the endpoint and tool model *)

(** [JSONSchemaType]: a schema object, by its entries. *)
Abbreviation JSONSchemaType := (list (string * Js.Value)).

Record EndpointParameter := {
  param_name : string;
  param_in : string;
  param_required : bool;
  param_schema : JSONSchemaType;
  param_description : option string;
}.

Record RequestBodySchema := {
  body_required : bool;
  body_contentType : string;
  body_schema : JSONSchemaType;
}.

Record SecurityScheme := {
  scheme_type : string;
  scheme_name : option string;
  scheme_in : option string;
  scheme_scheme : option string;
  scheme_bearerFormat : option string;
  scheme_flows : option Js.Value;
  scheme_openIdConnectUrl : option string;
}.

Record OpenAPIEndpoint := {
  operationId : string;
  method : string;
  path : string;
  summary : option string;
  description : option string;
  parameters : list EndpointParameter;
  requestBody : option RequestBodySchema;
  securitySchemes : list string;
  tags : list string;
}.

Record ParsedOpenAPI := {
  parsed_title : string;
  parsed_version : string;
  parsed_description : option string;
  parsed_baseUrl : string;
  endpoints : list OpenAPIEndpoint;
  parsed_securitySchemes : list (string * SecurityScheme);
}.

(** The input schema of a tool: the object [{type, properties, required?}]
    that [buildInputSchema] builds; [schema_required = None] is an object
    without a [required] key. [properties] is read and written by key only
    (the key [__proto__], which an assignment treats specially, is left out
    of the model). *)
Record InputSchema := {
  schema_type : string;
  schema_properties : gmap string JSONSchemaType;
  schema_required : option (list string);
}.

Record McpToolDefinition := {
  name : string;
  tool_description : string;
  inputSchema : InputSchema;
  httpMethod : string;
  pathTemplate : string;
  tool_parameters : list EndpointParameter;
  requestBodyContentType : option string;
  tool_securitySchemes : list string;
}.

(** ** The resolved OpenAPI 3.x document, as far as [parser.ts] reads it *)

(** A node of the document is either a [$ref] object or the object itself
    ([isReference] tells them apart). *)
Inductive OrRef (A : Type) : Type :=
| Reference (ref : string)
| Resolved (a : A).
Arguments Reference {A} ref.
Arguments Resolved {A} a.

Record ParameterObject := {
  po_name : string;
  po_in : string;
  po_required : option bool;
  po_schema : option JSONSchemaType;
  po_description : option string;
}.

Record MediaTypeObject := {
  media_schema : option JSONSchemaType;
}.

Record RequestBodyObject := {
  rbo_content : option (list (string * MediaTypeObject));
  rbo_required : option bool;
}.

Record OperationObject := {
  op_operationId : option string;
  op_summary : option string;
  op_description : option string;
  op_parameters : option (list (OrRef ParameterObject));
  op_requestBody : option (OrRef RequestBodyObject);
  op_security : option (list (list (string * list string)));
  op_tags : option (list string);
}.

Record PathItemObject := {
  pi_get : option OperationObject;
  pi_put : option OperationObject;
  pi_post : option OperationObject;
  pi_delete : option OperationObject;
  pi_options : option OperationObject;
  pi_head : option OperationObject;
  pi_patch : option OperationObject;
  pi_parameters : option (list (OrRef ParameterObject));
}.

Record SecuritySchemeObject := {
  sso_type : string;
  sso_name : option string;
  sso_in : option string;
  sso_scheme : option string;
  sso_bearerFormat : option string;
  sso_flows : option Js.Value;
  sso_openIdConnectUrl : option string;
}.

Record Document := {
  info_title : string;
  info_version : string;
  info_description : option string;
  servers : option (list string);  (* the [url] of each server entry *)
  paths : option (list (string * option (OrRef PathItemObject)));
  components_securitySchemes : option (list (string * OrRef SecuritySchemeObject));
}.

(** ** parser.ts: the operation-id synthesizer and the extractor *)

Module Parser.

(** [capitalize]: [str.charAt(0).toUpperCase() + str.slice(1)] *)
Definition capitalize (str : string) : string :=
  Js.toUpperCase (Js.charAt str 0) +:+ Js.slice_from str 1.

(** The callback given to [.map] in [generateOperationId]. *)
Definition renderPart (part : string) : string :=
  if Js.startsWith part "{" && Js.endsWith part "}"
  then "By" +:+ capitalize (Js.slice part 1 (-1))
  else capitalize part.

(** [path.split('/').filter(Boolean).map(...).join('')] *)
Definition pathParts (path : string) : string :=
  Js.join (map renderPart (List.filter Js.truthy (Js.split "/" path))).

Definition generateOperationId (method path : string) : string :=
  capitalize (Js.toLowerCase method) +:+ pathParts path.

Definition extractSecurityScheme (scheme : SecuritySchemeObject) : SecurityScheme :=
  let result ty nm loc sch fmt flows url :=
    {| scheme_type := ty; scheme_name := nm; scheme_in := loc;
       scheme_scheme := sch; scheme_bearerFormat := fmt;
       scheme_flows := flows; scheme_openIdConnectUrl := url |} in
  let ty := sso_type scheme in
  if String.eqb ty "apiKey" then
    result ty (sso_name scheme) (sso_in scheme) None None None None
  else if String.eqb ty "http" then
    result ty None None (sso_scheme scheme) (sso_bearerFormat scheme) None None
  else if String.eqb ty "oauth2" && bool_decide (is_Some (sso_flows scheme)) then
    result ty None None None None (sso_flows scheme) None
  else if String.eqb ty "openIdConnect"
          && bool_decide (is_Some (sso_openIdConnectUrl scheme)) then
    result ty None None None None None (sso_openIdConnectUrl scheme)
  else result ty None None None None None None.

Definition extractParameter (param : ParameterObject) : EndpointParameter :=
  {| param_name := po_name param;
     param_in := po_in param;
     param_required := Js.or_false (po_required param);
     param_schema := default [("type", Js.Str "string")] (po_schema param);
     param_description := po_description param |}.

Definition extractRequestBody (body : RequestBodyObject) : option RequestBodySchema :=
  let content := rbo_content body in
  (* Prefer JSON content type *)
  let jsonContent := content ≫= (fun c => Js.obj_get c "application/json") in
  match jsonContent ≫= media_schema with
  | Some schema =>
      Some {| body_required := Js.or_false (rbo_required body);
              body_contentType := "application/json";
              body_schema := schema |}
  | None =>
      (* Fallback to first available content type *)
      match head (default [] content) with
      | Some (contentType, mediaType) =>
          match Js.truthy contentType, media_schema mediaType with
          | true, Some schema =>
              Some {| body_required := Js.or_false (rbo_required body);
                      body_contentType := contentType;
                      body_schema := schema |}
          | _, _ => None
          end
      | None => None
      end
  end.

Definition extractEndpoint (path method : string) (operation : OperationObject)
    (pathParameters : option (list (OrRef ParameterObject))) : OpenAPIEndpoint :=
  (* Combine path-level and operation-level parameters *)
  let allParams := default [] pathParameters ++ default [] (op_parameters operation) in
  let parameters :=
    fold_left (fun parameters param =>
                 match param with
                 | Reference _ => parameters
                 | Resolved p => Js.push parameters (extractParameter p)
                 end) allParams [] in
  let requestBody :=
    match op_requestBody operation with
    | Some (Resolved body) => extractRequestBody body
    | _ => None
    end in
  let securitySchemes :=
    fold_left (fun acc req => acc ++ Js.keys req) (default [] (op_security operation)) [] in
  let operationId :=
    Js.or_string (op_operationId operation) (generateOperationId method path) in
  {| operationId := operationId;
     method := method;
     path := path;
     summary := op_summary operation;
     description := op_description operation;
     parameters := parameters;
     requestBody := requestBody;
     securitySchemes := securitySchemes;
     tags := default [] (op_tags operation) |}.

Definition methods : list string :=
  ["get"; "post"; "put"; "patch"; "delete"; "head"; "options"].

(** [pathItem[method]] *)
Definition pathItem_get (pathItem : PathItemObject) (method : string)
  : option OperationObject :=
  if String.eqb method "get" then pi_get pathItem
  else if String.eqb method "post" then pi_post pathItem
  else if String.eqb method "put" then pi_put pathItem
  else if String.eqb method "patch" then pi_patch pathItem
  else if String.eqb method "delete" then pi_delete pathItem
  else if String.eqb method "head" then pi_head pathItem
  else if String.eqb method "options" then pi_options pathItem
  else None.

(** The body of the outer loop of [extractFromSpec]: one entry of
    [Object.entries(api.paths)]. *)
Definition extractPath (endpoints : list OpenAPIEndpoint)
    (entry : string * option (OrRef PathItemObject)) : list OpenAPIEndpoint :=
  let '(path, pathItem) := entry in
  match pathItem with
  | None | Some (Reference _) => endpoints
  | Some (Resolved pathItem) =>
      fold_left (fun endpoints method =>
                   match pathItem_get pathItem method with
                   | None => endpoints
                   | Some operation =>
                       Js.push endpoints
                         (extractEndpoint path (Js.toUpperCase method) operation
                            (pi_parameters pathItem))
                   end) methods endpoints
  end.

Definition extractFromSpec (api : Document) : ParsedOpenAPI :=
  let securitySchemes :=
    match components_securitySchemes api with
    | Some schemes =>
        fold_left (fun acc entry =>
                     match entry with
                     | (_, Reference _) => acc
                     | (name, Resolved scheme) =>
                         Js.obj_set acc name (extractSecurityScheme scheme)
                     end) schemes []
    | None => []
    end in
  let baseUrl := Js.or_string (servers api ≫= head) "" in
  let endpoints :=
    match paths api with
    | Some entries => fold_left extractPath entries []
    | None => []
    end in
  {| parsed_title := info_title api;
     parsed_version := info_version api;
     parsed_description := info_description api;
     parsed_baseUrl := baseUrl;
     endpoints := endpoints;
     parsed_securitySchemes := securitySchemes |}.

End Parser.

(** ** mapper.ts *)

Module Mapper.

(** The property written for one parameter:
    [{...param.schema, description: param.description || param.schema.description}] *)
Definition paramProperty (param : EndpointParameter) : JSONSchemaType :=
  let description :=
    match param_description param with
    | Some d =>
        if Js.truthy d then Js.Str d
        else default Js.Undefined (Js.obj_get (param_schema param) "description")
    | None => default Js.Undefined (Js.obj_get (param_schema param) "description")
    end in
  Js.obj_set (param_schema param) "description" description.

(** [{...endpoint.requestBody.schema, description: "The JSON request body."}] *)
Definition bodyProperty (body : RequestBodySchema) : JSONSchemaType :=
  Js.obj_set (body_schema body) "description" (Js.Str "The JSON request body.").

(** One turn of the parameter loop of [buildInputSchema], on the pair of
    the two locals [properties] and [required]. *)
Definition addParameter (acc : gmap string JSONSchemaType * list string)
    (param : EndpointParameter) : gmap string JSONSchemaType * list string :=
  let '(properties, required) := acc in
  let properties := <[param_name param := paramProperty param]> properties in
  let required :=
    if param_required param then Js.push required (param_name param) else required in
  (properties, required).

Definition buildInputSchema (endpoint : OpenAPIEndpoint) : InputSchema :=
  (* Add parameters to schema *)
  let '(properties, required) :=
    fold_left addParameter (parameters endpoint) (∅, []) in
  (* Add request body to schema *)
  let '(properties, required) :=
    match requestBody endpoint with
    | Some body =>
        (<["requestBody" := bodyProperty body]> properties,
         if body_required body then Js.push required "requestBody" else required)
    | None => (properties, required)
    end in
  {| schema_type := "object";
     schema_properties := properties;
     schema_required := if (0 <? length required)%nat then Some required else None |}.

Definition newline : string := String (ascii_of_nat 10) EmptyString.

Definition mapEndpointToTool (endpoint : OpenAPIEndpoint) : McpToolDefinition :=
  let inputSchema := buildInputSchema endpoint in
  (* Build description from summary and path *)
  let text :=
    Js.or_string (summary endpoint)
      ("Executes " +:+ method endpoint +:+ " " +:+ path endpoint) in
  let text :=
    match description endpoint with
    | Some d =>
        if Js.truthy d && negb (bool_decide (summary endpoint = Some d))
        then text +:+ newline +:+ newline +:+ d
        else text
    | None => text
    end in
  {| name := operationId endpoint;
     tool_description := text;
     inputSchema := inputSchema;
     httpMethod := Js.toLowerCase (method endpoint);
     pathTemplate := path endpoint;
     tool_parameters := parameters endpoint;
     requestBodyContentType := body_contentType <$> requestBody endpoint;
     tool_securitySchemes := securitySchemes endpoint |}.

(** The callback given to [.filter] in [mapToMcpTools]. *)
Definition isEnabled (enabledPaths : option (gset string))
    (endpoint : OpenAPIEndpoint) : bool :=
  match enabledPaths with
  | None => true
  | Some enabled =>
      let key := method endpoint +:+ ":" +:+ path endpoint in
      bool_decide (key ∈ enabled)
  end.

Definition mapToMcpTools (endpoints : list OpenAPIEndpoint)
    (enabledPaths : option (gset string)) : list McpToolDefinition :=
  map mapEndpointToTool (List.filter (isEnabled enabledPaths) endpoints).

Definition getEndpointKey (endpoint : OpenAPIEndpoint) : string :=
  method endpoint +:+ ":" +:+ path endpoint.

Definition getAllEndpointKeys (endpoints : list OpenAPIEndpoint) : list string :=
  map getEndpointKey endpoints.

End Mapper.

(** ** generator.ts: the entry point *)

Module Generator.

Record OAuth2Config := {
  authorizationServerUrl : option string;
  scopes : option (list string);
  resourceUrl : option string;
  jwksCacheTtlSeconds : option Z;
}.

Record PromptArgument := {
  arg_name : string;
  arg_description : string;
  arg_required : bool;
}.

Record PromptDefinition := {
  prompt_name : string;
  prompt_title : option string;
  prompt_description : string;
  prompt_content : string;
  prompt_arguments : option (list PromptArgument);
}.

Record GeneratorOptions := {
  opt_name : string;
  opt_version : option string;
  opt_baseUrl : string;
  enabledEndpoints : option (gset string);
  emcyEnabled : option bool;
  localSdkPath : option string;
  oauth2Config : option OAuth2Config;
  prompts : option (list PromptDefinition);
}.

(** [GeneratedFiles]: file path to file text, in key order. *)
Abbreviation GeneratedFiles := (list (string * string)).

Section Emitter.

(** The six renderers of [generator.ts]. Each returns the text of one file;
    [generateMcpServer] only stores what they return. *)
Variable generatePackageJson : GeneratorOptions -> string.
Variable generateTsConfig : string.
Variable generateServerEntry :
  list McpToolDefinition -> GeneratorOptions -> list (string * SecurityScheme) -> string.
Variable generateTransport : GeneratorOptions -> string.
Variable generateEnvExample :
  list McpToolDefinition -> list (string * SecurityScheme) -> GeneratorOptions -> string.
Variable generateReadme : GeneratorOptions -> string.

(** [securitySchemes] has the default value [{}]. *)
Definition generateMcpServer (tools : list McpToolDefinition)
    (options : GeneratorOptions)
    (securitySchemes : option (list (string * SecurityScheme))) : GeneratedFiles :=
  let securitySchemes := default [] securitySchemes in
  let files : GeneratedFiles := [] in
  let files := Js.obj_set files "package.json" (generatePackageJson options) in
  let files := Js.obj_set files "tsconfig.json" generateTsConfig in
  let files :=
    Js.obj_set files "src/index.ts" (generateServerEntry tools options securitySchemes) in
  let files := Js.obj_set files "src/transport.ts" (generateTransport options) in
  let files :=
    Js.obj_set files ".env.example" (generateEnvExample tools securitySchemes options) in
  let files := Js.obj_set files "README.md" (generateReadme options) in
  files.

End Emitter.

End Generator.

(** ** Further JavaScript primitives, used by [generateEnvExample] and the CLI *)

Module JsLib.

Definition LF : string := String (ascii_of_nat 10) EmptyString.

(** [parts.join(sep)] *)
Fixpoint joinWith (sep : string) (parts : list string) : string :=
  match parts with
  | [] => EmptyString
  | x :: rest =>
      match rest with
      | [] => x
      | _ :: _ => x +:+ sep +:+ joinWith sep rest
      end
  end.

(** [set.add(x)] on a [Set] of strings, kept in insertion order. *)
Definition setAdd (set : list string) (x : string) : list string :=
  if bool_decide (x ∈ set) then set else set ++ [x].

Definition is_digit (c : ascii) : bool :=
  (48 <=? nat_of_ascii c)%nat && (nat_of_ascii c <=? 57)%nat.

(** The character class [[a-zA-Z0-9]]. *)
Definition is_alnum (c : ascii) : bool :=
  Js.is_lower c || Js.is_upper c || is_digit c.

(** [s.replace(/[^a-zA-Z0-9]/g, "_")] *)
Fixpoint replaceNonAlnum (s : string) : string :=
  match s with
  | EmptyString => EmptyString
  | String c r =>
      String (if is_alnum c then c else "_"%char) (replaceNonAlnum r)
  end.

End JsLib.

(** ** generator.ts: the environment template *)

Module EnvExample.

(** [schemeName.replace(/[^a-zA-Z0-9]/g, "_").toUpperCase()] *)
Definition envKey (schemeName : string) : string :=
  Js.toUpperCase (JsLib.replaceNonAlnum schemeName).

(** [options.oauth2Config?.authorizationServerUrl], when truthy. *)
Definition authorizationServer (options : Generator.GeneratorOptions)
  : option string :=
  match Generator.oauth2Config options with
  | Some config =>
      match Generator.authorizationServerUrl config with
      | Some url => if Js.truthy url then Some url else None
      | None => None
      end
  | None => None
  end.

(** The [Set] built by the two nested loops over the tools. *)
Definition usedSchemes (tools : list McpToolDefinition) : list string :=
  fold_left (fun used tool => fold_left JsLib.setAdd (tool_securitySchemes tool) used)
    tools [].

(** [scheme?.type !== "oauth2"], the callback given to [.some]. *)
Definition isNonOAuth (securitySchemes : list (string * SecurityScheme))
    (schemeName : string) : bool :=
  match Js.obj_get securitySchemes schemeName with
  | Some scheme => negb (String.eqb (scheme_type scheme) "oauth2")
  | None => true
  end.

(** One turn of the loop over [usedSchemes]. *)
Definition addCredential (securitySchemes : list (string * SecurityScheme))
    (lines : list string) (schemeName : string) : list string :=
  let scheme := Js.obj_get securitySchemes schemeName in
  let envKey := envKey schemeName in
  match scheme with
  | Some scheme =>
      if String.eqb (scheme_type scheme) "apiKey" then
        Js.push lines ("API_KEY_" +:+ envKey +:+ "=your-api-key")
      else if String.eqb (scheme_type scheme) "http"
              && bool_decide (scheme_scheme scheme = Some "bearer") then
        Js.push lines ("BEARER_TOKEN_" +:+ envKey +:+ "=your-bearer-token")
      else lines
  | None => lines
  end.

(** The local [lines] of [generateEnvExample] when it is joined. *)
Definition envExampleLines (tools : list McpToolDefinition)
    (securitySchemes : list (string * SecurityScheme))
    (options : Generator.GeneratorOptions) : list string :=
  let lines :=
    [ "# API Configuration";
      "API_BASE_URL=" +:+ Generator.opt_baseUrl options;
      "";
      "# Emcy Telemetry (optional)";
      "# Set these to enable telemetry to Emcy platform";
      "# EMCY_API_KEY=your-api-key-from-emcy-dashboard";
      "# EMCY_TELEMETRY_URL=http://localhost:5140/api/v1/telemetry";
      "# EMCY_MCP_SERVER_ID=mcp_xxxxxxxxxxxx";
      "# EMCY_DEBUG=false";
      "";
      "# Server Port (for HTTP transport)";
      "PORT=3000" ] in
  (* MCP OAuth configuration - for client authentication to this MCP server *)
  let lines :=
    match authorizationServer options with
    | Some url =>
        lines
        ++ [ ""; "# MCP OAuth 2.0 Configuration (RFC 9728)" ]
        ++ [ "# This MCP server acts as an OAuth Resource Server" ]
        ++ [ "OAUTH_AUTHORIZATION_SERVER=" +:+ url ]
        ++ [ "# The public URL of this MCP server (used in Protected Resource Metadata)" ]
        ++ [ "# MCP_RESOURCE_URL=https://your-mcp-server.example.com" ]
        ++ [ "# Set to 'false' to disable OAuth authentication (for development only)" ]
        ++ [ "# MCP_REQUIRE_AUTH=true" ]
    | None => lines
    end in
  (* Collect unique security schemes used by tools *)
  let usedSchemes := usedSchemes tools in
  (* Add other security credentials (API keys, bearer tokens, etc.) *)
  let hasNonOAuthSchemes := existsb (isNonOAuth securitySchemes) usedSchemes in
  if hasNonOAuthSchemes then
    fold_left (addCredential securitySchemes) usedSchemes
      (lines ++ [ ""; "# Security Credentials" ])
  else lines.

Definition generateEnvExample (tools : list McpToolDefinition)
    (securitySchemes : list (string * SecurityScheme))
    (options : Generator.GeneratorOptions) : string :=
  JsLib.joinWith JsLib.LF (envExampleLines tools securitySchemes options).

End EnvExample.

(** ** cli.ts: the default server name *)

Module Cli.

(** The character class [[a-z0-9]]. *)
Definition is_slug_char (c : ascii) : bool := Js.is_lower c || JsLib.is_digit c.

(** [s.replace(/[^a-z0-9]+/g, '-')]: every maximal run of other characters
    becomes one dash; [inRun] tells that the run the next character would
    belong to has its dash already. *)
Fixpoint replaceRuns (inRun : bool) (s : string) : string :=
  match s with
  | EmptyString => EmptyString
  | String c r =>
      if is_slug_char c then String c (replaceRuns false r)
      else if inRun then replaceRuns true r
      else String "-"%char (replaceRuns true r)
  end.

(** The alternative [^-] of [/^-|-$/g]: a dash at the very start. *)
Definition stripLeadingDash (s : string) : string :=
  match s with
  | String c r => if Ascii.eqb c "-" then r else s
  | EmptyString => EmptyString
  end.

(** The alternative [-$]: a dash at the very end. *)
Fixpoint stripTrailingDash (s : string) : string :=
  match s with
  | EmptyString => EmptyString
  | String c EmptyString => if Ascii.eqb c "-" then EmptyString else s
  | String c r => String c (stripTrailingDash r)
  end.

Definition slugify (text : string) : string :=
  stripTrailingDash (stripLeadingDash (replaceRuns false (Js.toLowerCase text))).

End Cli.

(** ** The synthesizer as the specification words it (section 4.2)

    Written from the sentences of the specification, independently of
    [Parser.generateOperationId], to be compared with it. *)

Module Reference.

(** "Capitalize": the first character upper-cased, the rest untouched. *)
Definition Capitalize (s : string) : string :=
  match s with
  | EmptyString => EmptyString
  | String c r => String (Js.upper_char c) r
  end.

(** "split the path on [/]": read the path left to right, growing the current
    segment until a slash closes it. *)
Fixpoint splitOnSlash (current path : string) : list string :=
  match path with
  | EmptyString => [current]
  | String c r =>
      if Ascii.eqb c "/" then current :: splitOnSlash EmptyString r
      else splitOnSlash (current +:+ String c EmptyString) r
  end.

(** "drop empty segments" *)
Fixpoint dropEmpty (segments : list string) : list string :=
  match segments with
  | [] => []
  | EmptyString :: rest => dropEmpty rest
  | seg :: rest => seg :: dropEmpty rest
  end.

(** [closing s = Some name] when [s] is [name] followed by a closing brace. *)
Fixpoint closing (s : string) : option string :=
  match s with
  | EmptyString => None
  | String c EmptyString => if Ascii.eqb c "}" then Some EmptyString else None
  | String c r => String c <$> closing r
  end.

(** "a brace-delimited path variable ([{name}])": the name, if the segment
    is one. *)
Definition pathVariable (segment : string) : option string :=
  match segment with
  | String c r => if Ascii.eqb c "{" then closing r else None
  | EmptyString => None
  end.

(** "emit ["By" + Capitalize(name)], else emit [Capitalize(segment)]" *)
Definition emit (segment : string) : string :=
  match pathVariable segment with
  | Some name => "By" +:+ Capitalize name
  | None => Capitalize segment
  end.

(** "concatenate all segment outputs in order; prepend
    [Capitalize(lowercased(method))]" *)
Definition synthesize (method path : string) : string :=
  Capitalize (Js.toLowerCase method)
  +:+ String.concat EmptyString (map emit (dropEmpty (splitOnSlash EmptyString path))).

End Reference.

(** ** Sample documents and endpoints *)

Module Samples.

Definition operation : OperationObject :=
  {| op_operationId := None; op_summary := None; op_description := None;
     op_parameters := None; op_requestBody := None; op_security := None;
     op_tags := None |}.

Definition pathItem (get post delete : option OperationObject) : PathItemObject :=
  {| pi_get := get; pi_put := None; pi_post := post; pi_delete := delete;
     pi_options := None; pi_head := None; pi_patch := None;
     pi_parameters := None |}.

Definition document (entries : list (string * option (OrRef PathItemObject)))
  : Document :=
  {| info_title := "Sample API"; info_version := "v1"; info_description := None;
     servers := None; paths := Some entries; components_securitySchemes := None |}.

(** Two path templates, no explicit [operationId] anywhere. *)
Definition collidingApi : Document :=
  document
    [ ("/users/{id}", Some (Resolved (pathItem (Some operation) None None)));
      ("/users/by/id", Some (Resolved (pathItem (Some operation) None None))) ].

(** The document of the integration test, reduced to the [Orders] paths. *)
Definition ordersApi : Document :=
  document
    [ ("/Orders", Some (Resolved (pathItem (Some operation) (Some operation) None)));
      ("/Orders/{id}",
       Some (Resolved (pathItem (Some operation) None (Some operation)))) ].

Definition parameter (name type : string) (required : bool) : ParameterObject :=
  {| po_name := name; po_in := "query"; po_required := Some required;
     po_schema := Some [("type", Js.Str type)]; po_description := None |}.

Definition jsonBody (required : bool) : RequestBodyObject :=
  {| rbo_content :=
       Some [("application/json",
              {| media_schema := Some [("type", Js.Str "object")] |})];
     rbo_required := Some required |}.

(** A [post] operation with a required parameter named [requestBody] and a
    required JSON body. *)
Definition shadowedOperation : OperationObject :=
  {| op_operationId := None; op_summary := None; op_description := None;
     op_parameters := Some [Resolved (parameter "requestBody" "integer" true)];
     op_requestBody := Some (Resolved (jsonBody true)); op_security := None;
     op_tags := None |}.

(** [POST /items]: the operation above under a path item that declares a
    required parameter named [requestBody] too. *)
Definition shadowedEndpoint : OpenAPIEndpoint :=
  Parser.extractEndpoint "/items" "POST" shadowedOperation
    (Some [Resolved (parameter "requestBody" "string" true)]).

(** [POST /uploads]: one required parameter named [requestBody] and a
    required JSON body. *)
Definition clashingEndpoint : OpenAPIEndpoint :=
  Parser.extractEndpoint "/uploads" "POST" shadowedOperation None.

(** [GET /items/{id}]: [id] declared on the path item and again, as an
    integer, on the operation; both required. *)
Definition overriddenOperation : OperationObject :=
  {| op_operationId := None; op_summary := None; op_description := None;
     op_parameters := Some [Resolved (parameter "id" "integer" true)];
     op_requestBody := None; op_security := None; op_tags := None |}.

Definition overriddenEndpoint : OpenAPIEndpoint :=
  Parser.extractEndpoint "/items/{id}" "GET" overriddenOperation
    (Some [Resolved (parameter "id" "string" true)]).

(** An endpoint built by hand, with its method in lower case. *)
Definition lowerCaseEndpoint : OpenAPIEndpoint :=
  {| operationId := "getUsers"; method := "get"; path := "/users";
     summary := None; description := None; parameters := [];
     requestBody := None; securitySchemes := []; tags := [] |}.

(** A body whose JSON media type is declared without a schema. *)
Definition schemalessJsonBody : RequestBodyObject :=
  {| rbo_content :=
       Some [ ("text/plain", {| media_schema := Some [("type", Js.Str "string")] |});
              ("application/json", {| media_schema := None |}) ];
     rbo_required := None |}.

(** A body with a plain-text media type only. *)
Definition textBody : RequestBodyObject :=
  {| rbo_content :=
       Some [ ("text/plain", {| media_schema := Some [("type", Js.Str "string")] |}) ];
     rbo_required := None |}.

End Samples.

(** ** Vocabulary of the properties *)

(** The endpoint that one (path, method) slot of a path item contributes. *)
Definition slotEndpoints (path : string) (pathItem : PathItemObject)
    (method : string) : list OpenAPIEndpoint :=
  match Parser.pathItem_get pathItem method with
  | None => []
  | Some operation =>
      [Parser.extractEndpoint path (Js.toUpperCase method) operation
         (pi_parameters pathItem)]
  end.

(** The endpoints that one entry of [api.paths] contributes. *)
Definition entryEndpoints (entry : string * option (OrRef PathItemObject))
  : list OpenAPIEndpoint :=
  match entry with
  | (path, Some (Resolved pathItem)) =>
      flat_map (slotEndpoints path pathItem) Parser.methods
  | _ => []
  end.

(** The (path, method) slots of one entry of [api.paths] that carry an
    operation, the methods in the fixed order. *)
Definition entrySlots (entry : string * option (OrRef PathItemObject))
  : list (string * string) :=
  match entry with
  | (path, Some (Resolved pathItem)) =>
      map (fun method => (path, Js.toUpperCase method))
        (List.filter
           (fun method => bool_decide (is_Some (Parser.pathItem_get pathItem method)))
           Parser.methods)
  | _ => []
  end.

(** The slots of a document that carry an operation, path templates in
    declaration order. *)
Definition declaredSlots (api : Document) : list (string * string) :=
  flat_map entrySlots (default [] (paths api)).

(** Every (path, method) slot, whether it carries an operation or not. *)
Definition allSlots (api : Document) : list (string * string) :=
  flat_map
    (fun entry : string * option (OrRef PathItemObject) =>
       map (fun method => (entry.1, method))
         ["GET"; "POST"; "PUT"; "PATCH"; "DELETE"; "HEAD"; "OPTIONS"])
    (default [] (paths api)).

Definition slot (endpoint : OpenAPIEndpoint) : string * string :=
  (path endpoint, method endpoint).

(** The endpoint carries the identifier the synthesizer gives its method and
    path, as every endpoint extracted from an operation without an explicit
    [operationId] does. *)
Definition synthesized (endpoint : OpenAPIEndpoint) : Prop :=
  operationId endpoint
  = Parser.generateOperationId (method endpoint) (path endpoint).

(** The names of the required parameters, in declaration order. *)
Definition requiredParameters (endpoint : OpenAPIEndpoint) : list string :=
  map param_name (List.filter param_required (parameters endpoint)).

(** Whether the endpoint has a request body that is required. *)
Definition bodyRequired (endpoint : OpenAPIEndpoint) : bool :=
  match requestBody endpoint with
  | Some body => body_required body
  | None => false
  end.

(** The properties written by the parameter loop alone. *)
Definition parameterProperties (params : list EndpointParameter)
  : gmap string JSONSchemaType :=
  fold_left (fun properties param =>
               <[param_name param := Mapper.paramProperty param]> properties)
    params ∅.

(** The local [required] of [buildInputSchema] when it reaches the final test. *)
Definition requiredList (endpoint : OpenAPIEndpoint) : list string :=
  default [] (schema_required (Mapper.buildInputSchema endpoint)).

(** How many times a name occurs in an array of names. *)
Definition occurrences (name : string) (names : list string) : nat :=
  length (List.filter (String.eqb name) names).

(** How many required parameters of a list carry a given name. *)
Definition requiredCopies (name : string) (params : list EndpointParameter) : nat :=
  length (List.filter (fun p => param_required p && String.eqb (param_name p) name) params).

(** The parameters that [extractEndpoint] keeps from a declared list. *)
Definition keptParameters (declared : list (OrRef ParameterObject))
  : list EndpointParameter :=
  flat_map (fun param =>
              match param with
              | Reference _ => []
              | Resolved p => [Parser.extractParameter p]
              end) declared.

(** The key of a tool, rebuilt from the tool alone: its method in upper
    case, a colon, its path template. *)
Definition toolKey (tool : McpToolDefinition) : string :=
  Js.toUpperCase (httpMethod tool) +:+ ":" +:+ pathTemplate tool.

(** The descriptor [extractRequestBody] returns for a content type and its
    schema. *)
Definition retained (body : RequestBodyObject) (contentType : string)
    (schema : JSONSchemaType) : RequestBodySchema :=
  {| body_required := Js.or_false (rbo_required body);
     body_contentType := contentType;
     body_schema := schema |}.

(** [application/json] is declared and carries a schema. *)
Definition jsonSchema (body : RequestBodyObject) : option JSONSchemaType :=
  (rbo_content body ≫= (fun content => Js.obj_get content "application/json"))
  ≫= media_schema.


(** Every character of a text passes a test. *)
Fixpoint everyChar (ok : ascii -> bool) (s : string) : bool :=
  match s with
  | EmptyString => true
  | String c r => ok c && everyChar ok r
  end.

(** A character other than the line feed. *)
Definition notLF (c : ascii) : bool := negb (Ascii.eqb c (ascii_of_nat 10)).

(** The line that one used scheme contributes to the environment template. *)
Definition credentialLine (securitySchemes : list (string * SecurityScheme))
    (schemeName : string) : list string :=
  EnvExample.addCredential securitySchemes [] schemeName.

(** The characters of an environment-variable name: [A-Z], [0-9], [_]. *)
Definition is_env_char (c : ascii) : bool :=
  Js.is_upper c || JsLib.is_digit c || Ascii.eqb c "_".

(** The characters of a slug: [a-z], [0-9] and the dash. *)
Definition is_slug_out (c : ascii) : bool :=
  Cli.is_slug_char c || Ascii.eqb c "-".

(** A text of slug characters without two dashes in a row, and without a
    dash in front when [afterDash] is set. *)
Fixpoint wellDashed (afterDash : bool) (s : string) : bool :=
  match s with
  | EmptyString => true
  | String c r =>
      if Ascii.eqb c "-" then negb afterDash && wellDashed true r
      else Cli.is_slug_char c && wellDashed false r
  end.

(** The text ends with a dash. *)
Fixpoint endsDash (s : string) : bool :=
  match s with
  | EmptyString => false
  | String c EmptyString => Ascii.eqb c "-"
  | String c r => endsDash r
  end.


(** ** More samples *)

Module Fixtures.

Definition apiKeyScheme : SecuritySchemeObject :=
  {| sso_type := "apiKey"; sso_name := Some "X-API-Key"; sso_in := Some "header";
     sso_scheme := None; sso_bearerFormat := None; sso_flows := None;
     sso_openIdConnectUrl := None |}.

Definition bearerScheme : SecuritySchemeObject :=
  {| sso_type := "http"; sso_name := None; sso_in := None;
     sso_scheme := Some "bearer"; sso_bearerFormat := Some "JWT"; sso_flows := None;
     sso_openIdConnectUrl := None |}.

(** The [Orders] document with two security schemes and a reference. *)
Definition securedApi : Document :=
  {| info_title := "Sample API"; info_version := "v1"; info_description := None;
     servers := Some ["https://api.example.com"];
     paths := paths Samples.ordersApi;
     components_securitySchemes :=
       Some [ ("apiKey", Resolved apiKeyScheme);
              ("shared", Reference "#/components/securitySchemes/apiKey");
              ("bearerAuth", Resolved bearerScheme) ] |}.

Definition options : Generator.GeneratorOptions :=
  {| Generator.opt_name := "sample-api"; Generator.opt_version := None;
     Generator.opt_baseUrl := "http://localhost:3000";
     Generator.enabledEndpoints := None; Generator.emcyEnabled := None;
     Generator.localSdkPath := None; Generator.oauth2Config := None;
     Generator.prompts := None |}.

Definition oauthOptions : Generator.GeneratorOptions :=
  {| Generator.opt_name := "sample-api"; Generator.opt_version := None;
     Generator.opt_baseUrl := "http://localhost:3000";
     Generator.enabledEndpoints := None; Generator.emcyEnabled := None;
     Generator.localSdkPath := None;
     Generator.oauth2Config :=
       Some {| Generator.authorizationServerUrl := Some "https://auth.example.com";
               Generator.scopes := None; Generator.resourceUrl := None;
               Generator.jwksCacheTtlSeconds := None |};
     Generator.prompts := None |}.

Definition tool (name : string) (schemes : list string) : McpToolDefinition :=
  {| name := name; tool_description := "Executes GET /secure";
     inputSchema := {| schema_type := "object"; schema_properties := ∅;
                       schema_required := None |};
     httpMethod := "get"; pathTemplate := "/secure"; tool_parameters := [];
     requestBodyContentType := None; tool_securitySchemes := schemes |}.

End Fixtures.

Example generateOperationId_t1 :
  Parser.generateOperationId "get" "/users" = "GetUsers" /\
  Parser.generateOperationId "GET" "/users/{id}" = "GetUsersById" /\
  Parser.generateOperationId "post" "/orders/{orderId}/items" = "PostOrdersByOrderIdItems" /\
  Parser.generateOperationId "get" "/api/v1/products" = "GetApiV1Products" /\
  Parser.generateOperationId "get" "/" = "Get".
Proof. vm_compute. repeat split. Qed.

Example extractFromSpec_t1 :
  map (fun e => (method e, path e, operationId e))
    (endpoints (Parser.extractFromSpec Samples.ordersApi))
  = [ ("GET", "/Orders", "GetOrders"); ("POST", "/Orders", "PostOrders");
      ("GET", "/Orders/{id}", "GetOrdersById");
      ("DELETE", "/Orders/{id}", "DeleteOrdersById") ].
Proof. by vm_compute. Qed.

Example buildInputSchema_t1 :
  schema_required (Mapper.buildInputSchema Samples.clashingEndpoint)
  = Some ["requestBody"; "requestBody"] /\
  schema_required (Mapper.buildInputSchema Samples.overriddenEndpoint)
  = Some ["id"; "id"] /\
  schema_required (Mapper.buildInputSchema Samples.lowerCaseEndpoint) = None.
Proof. by vm_compute. Qed.

Example mapToMcpTools_t1 :
  map name
    (Mapper.mapToMcpTools (endpoints (Parser.extractFromSpec Samples.ordersApi))
       (Some {["GET:/Orders"; "POST:/Orders"]}))
  = ["GetOrders"; "PostOrders"].
Proof. by vm_compute. Qed.

Example synthesize_t1 :
  Reference.synthesize "get" "/users/{id}" = "GetUsersById" /\
  Reference.synthesize "POST" "/orders/{orderId}/items/" = "PostOrdersByOrderIdItems" /\
  Reference.synthesize "get" "//{}/{a/b}" = "GetBy{aB}".
Proof. vm_compute. repeat split. Qed.

Example generateOperationId_t2 :
  Parser.generateOperationId "get" "//{}/{a/b}" = "GetBy{aB}".
Proof. vm_compute. repeat split. Qed.

(** * Properties *)

#[local] Arguments String.append : simpl nomatch.

(** [map] is the standard library's, the lookup lemmas are stated on
    stdpp's [fmap]; on lists the two are convertible. *)
Ltac map_as_fmap := change (map ?f ?l) with (f <$> l).

(** ** Strings *)

Section StringFacts.

Lemma substring_whole (s : string) : String.substring 0 (String.length s) s = s.
Proof. induction s as [|c s IH]; simpl; [done | by rewrite IH]. Qed.

Lemma substring_front (s t : string) :
  String.substring 0 (String.length s) (s +:+ t) = s.
Proof.
  induction s as [|c s IH]; simpl.
  - by destruct t.
  - by rewrite IH.
Qed.

Lemma substring_back (s : string) (c : ascii) :
  String.substring (String.length s) 1 (s +:+ String c EmptyString)
  = String c EmptyString.
Proof. induction s as [|d s IH]; simpl; [done | apply IH]. Qed.

Lemma length_snoc (s : string) (c : ascii) :
  String.length (s +:+ String c EmptyString) = S (String.length s).
Proof. induction s as [|d s IH]; simpl; [done | by rewrite IH]. Qed.

(** A string that is not empty ends in a last character. *)
Lemma string_snoc_inv (c : ascii) (s : string) :
  exists t d, String c s = t +:+ String d EmptyString.
Proof.
  revert c. induction s as [|e s IH]; intros c.
  - by exists EmptyString, c.
  - destruct (IH e) as (t & d & Heq). exists (String c t), d. simpl. by rewrite Heq.
Qed.

Lemma append_empty_r (s : string) : s +:+ EmptyString = s.
Proof. induction s as [|c s IH]; simpl; [done | by rewrite IH]. Qed.

Lemma append_assoc (s t u : string) : (s +:+ t) +:+ u = s +:+ (t +:+ u).
Proof. induction s as [|c s IH]; simpl; [done | by rewrite IH]. Qed.

End StringFacts.

(** ** C1: the synthesizer against the reference algorithm *)

Section Synthesizer.

Lemma capitalize_Capitalize (s : string) :
  Parser.capitalize s = Reference.Capitalize s.
Proof.
  destruct s as [|c s]; [done |].
  unfold Parser.capitalize, Js.charAt, Js.slice_from, Js.slice, Js.clamp. simpl String.get.
  cbn [Js.toUpperCase String.append].
  replace (Z.of_nat (String.length (String c s)) <? 0)%Z with false by (symmetry; apply Z.ltb_ge; lia).
  cbn [Z.ltb Z.compare].
  rewrite Z.min_id.
  replace (Z.min 1 (Z.of_nat (String.length (String c s)))) with 1%Z
    by (cbn [String.length]; lia).
  replace (Z.to_nat (Z.of_nat (String.length (String c s)) - 1)) with (String.length s)
    by (cbn [String.length]; lia).
  change (Z.to_nat 1) with 1%nat. cbn [String.substring].
  by rewrite substring_whole.
Qed.

Lemma split_cons (sep : ascii) (s : string) :
  exists w ws, Js.split sep s = w :: ws.
Proof.
  induction s as [|c r (w & ws & IH)]; simpl; [by eauto |].
  destruct (Ascii.eqb c sep); [by eauto |]. rewrite IH. by eauto.
Qed.

Lemma split_splitOnSlash (current path : string) :
  Reference.splitOnSlash current path =
  match Js.split "/" path with
  | [] => [current]
  | w :: ws => (current +:+ w) :: ws
  end.
Proof.
  revert current. induction path as [|c r IH]; intros current; simpl.
  - by rewrite append_empty_r.
  - destruct (split_cons "/" r) as (w & ws & Hsplit).
    destruct (Ascii.eqb c "/"); simpl.
    + rewrite append_empty_r, IH. by rewrite Hsplit.
    + rewrite IH, Hsplit. simpl. by rewrite append_assoc.
Qed.

Lemma filter_dropEmpty (segments : list string) :
  List.filter Js.truthy segments = Reference.dropEmpty segments.
Proof.
  induction segments as [|seg rest IH]; [done |].
  destruct seg; simpl; by rewrite IH.
Qed.

Lemma join_concat (parts : list string) :
  Js.join parts = String.concat EmptyString parts.
Proof.
  induction parts as [|x xs IH]; [done |]. simpl. rewrite IH.
  destruct xs; simpl; [by rewrite append_empty_r | done].
Qed.

Lemma closing_snoc (t : string) (d : ascii) :
  Reference.closing (t +:+ String d EmptyString)
  = if Ascii.eqb d "}" then Some t else None.
Proof.
  induction t as [|c t IH]; [done |].
  change (String c t +:+ String d EmptyString) with (String c (t +:+ String d EmptyString)).
  cbn [Reference.closing]. rewrite IH.
  destruct (t +:+ String d EmptyString) eqn:E.
  - by destruct t.
  - by destruct (Ascii.eqb d "}").
Qed.

Lemma endsWith_snoc (t : string) (d : ascii) :
  Js.endsWith (t +:+ String d EmptyString) "}" = Ascii.eqb d "}".
Proof.
  unfold Js.endsWith. rewrite length_snoc. cbn [String.length Nat.leb].
  replace (S (String.length t) - 1)%nat with (String.length t) by lia.
  rewrite substring_back. simpl. by destruct (Ascii.eqb d "}").
Qed.

(** [part.slice(1, -1)] takes the braces off a brace-delimited segment. *)
Lemma slice_braces (c d : ascii) (t : string) :
  Js.slice (String c (t +:+ String d EmptyString)) 1 (-1) = t.
Proof.
  unfold Js.slice, Js.clamp. cbn [String.length]. rewrite length_snoc.
  cbn [Z.ltb Z.compare].
  replace (Z.min 1 (Z.of_nat (S (S (String.length t))))) with 1%Z by lia.
  replace (Z.max (Z.of_nat (S (S (String.length t))) + -1) 0 - 1)%Z
    with (Z.of_nat (String.length t)) by lia.
  rewrite Nat2Z.id. change (Z.to_nat 1) with 1%nat. cbn [String.substring].
  apply substring_front.
Qed.

Lemma renderPart_emit (part : string) : Parser.renderPart part = Reference.emit part.
Proof.
  unfold Parser.renderPart, Reference.emit, Reference.pathVariable, Js.startsWith.
  destruct part as [|c r]; [apply capitalize_Capitalize |].
  cbn [String.prefix].
  destruct (ascii_dec "{" c) as [<-|Hne].
  - change (Ascii.eqb "{" "{") with true. cbn match.
    destruct r as [|e r].
    + apply capitalize_Capitalize.
    + destruct (string_snoc_inv e r) as (t & d & ->).
      replace (String.prefix EmptyString (t +:+ String d EmptyString)) with true
        by (by destruct (t +:+ String d EmptyString)).
      change (String "{" (t +:+ String d EmptyString))
        with (String "{" t +:+ String d EmptyString) at 1.
      rewrite endsWith_snoc, closing_snoc. cbn [andb].
      destruct (Ascii.eqb d "}").
      * by rewrite slice_braces, capitalize_Capitalize.
      * apply capitalize_Capitalize.
  - replace (Ascii.eqb c "{") with false
      by (symmetry; apply Ascii.eqb_neq; congruence).
    cbn [andb]. apply capitalize_Capitalize.
Qed.

(** The reference's test for a path variable is the specification's
    [{name}] shape. *)
Lemma pathVariable_braces (segment name : string) :
  Reference.pathVariable segment = Some name <-> segment = "{" +:+ name +:+ "}".
Proof.
  unfold Reference.pathVariable. destruct segment as [|c r]; [by split |].
  destruct (Ascii.eqb_spec c "{") as [->|Hne].
  - destruct r as [|e r].
    + split; [done |]. simpl. intros [=]. by destruct name.
    + destruct (string_snoc_inv e r) as (t & d & ->). rewrite closing_snoc.
      destruct (Ascii.eqb_spec d "}") as [->|Hd].
      * split; [by intros [= ->] |]. simpl. intros [= Heq].
        f_equal. revert name Heq. induction t as [|a t IH]; intros [|b name]; simpl; try done.
        -- intros [= _ Heq]. by destruct name.
        -- intros [= _ Heq]. by destruct t.
        -- intros [= -> Heq]. f_equal. by apply IH.
      * split; [done |]. simpl. intros [= Heq]. exfalso. apply Hd.
        revert name Heq. induction t as [|a t IH]; intros [|b name]; simpl; try done.
        -- by intros [= ->].
        -- intros [= _ Heq]. by destruct name.
        -- intros [= _ Heq]. by destruct t.
        -- intros [= _ Heq]. by apply (IH name).
  - split; [done |]. simpl. by intros [= ->].
Qed.

(** C1. For every method and path template, [generateOperationId] returns
    what the reference algorithm of the specification returns: the path split
    on [/] with the empty segments dropped, each segment rendered as
    ["By" + Capitalize(name)] when it is [{name}] and as [Capitalize(segment)]
    otherwise, the renderings concatenated in order after
    [Capitalize(lowercased(method))]; and the four vectors of the
    specification ([GetUsers], [GetUsersById], [PostOrdersByOrderIdItems],
    and [Get] for the root path) come out as stated. *)
Theorem generateOperationId_is_reference :
  (forall method path : string,
     Parser.generateOperationId method path = Reference.synthesize method path) /\
  Parser.generateOperationId "get" "/users" = "GetUsers" /\
  Parser.generateOperationId "get" "/users/{id}" = "GetUsersById" /\
  Parser.generateOperationId "post" "/orders/{orderId}/items"
    = "PostOrdersByOrderIdItems" /\
  Parser.generateOperationId "get" "/" = "Get".
Proof.
  split; [| by vm_compute].
  intros method path.
  unfold Parser.generateOperationId, Reference.synthesize, Parser.pathParts.
  rewrite capitalize_Capitalize, join_concat, filter_dropEmpty, split_splitOnSlash.
  destruct (split_cons "/" path) as (w & ws & ->). simpl String.append.
  f_equal. f_equal. apply map_ext. intros part. apply renderPart_emit.
Qed.

End Synthesizer.

(** ** C5: the order of extraction *)

Section ExtractionOrder.

(** A loop that only pushes is a concatenation. *)
Lemma fold_left_pushes {A B} (body : list B -> A -> list B) (pushed : A -> list B)
    (items : list A) (acc : list B) :
  (forall acc x, body acc x = acc ++ pushed x) ->
  fold_left body items acc = acc ++ flat_map pushed items.
Proof.
  intros Hbody. revert acc. induction items as [|x items IH]; intros acc; simpl.
  - by rewrite app_nil_r.
  - by rewrite IH, Hbody, <- app_assoc.
Qed.

Lemma extractPath_pushes (acc : list OpenAPIEndpoint)
    (entry : string * option (OrRef PathItemObject)) :
  Parser.extractPath acc entry = acc ++ entryEndpoints entry.
Proof.
  unfold Parser.extractPath, entryEndpoints.
  destruct entry as [path [[ref|pathItem]|]]; try by rewrite app_nil_r.
  apply fold_left_pushes. intros acc' method. unfold slotEndpoints.
  destruct (Parser.pathItem_get pathItem method); [done | by rewrite app_nil_r].
Qed.

Lemma extractFromSpec_endpoints (api : Document) :
  endpoints (Parser.extractFromSpec api)
  = flat_map entryEndpoints (default [] (paths api)).
Proof.
  unfold Parser.extractFromSpec. cbn [endpoints].
  destruct (paths api) as [entries|]; [| done]. simpl.
  by rewrite (fold_left_pushes _ entryEndpoints) by apply extractPath_pushes.
Qed.

Lemma map_slot_slotEndpoints path pathItem (ms : list string) :
  map slot (flat_map (slotEndpoints path pathItem) ms) =
  map (fun method => (path, Js.toUpperCase method))
    (List.filter
       (fun method => bool_decide (is_Some (Parser.pathItem_get pathItem method))) ms).
Proof.
  induction ms as [|m ms IH]; [done |].
  cbn [flat_map List.filter]. rewrite map_app, IH. unfold slotEndpoints at 1.
  destruct (Parser.pathItem_get pathItem m) as [operation|].
  - by rewrite bool_decide_true by eauto.
  - by rewrite bool_decide_false by (by intros [? ?]).
Qed.

Lemma map_slot_entryEndpoints (entry : string * option (OrRef PathItemObject)) :
  map slot (entryEndpoints entry) = entrySlots entry.
Proof.
  destruct entry as [path [[ref|pathItem]|]]; try done.
  apply map_slot_slotEndpoints.
Qed.

Lemma map_flat_map {A B C} (f : B -> C) (g : A -> list B) (l : list A) :
  map f (flat_map g l) = flat_map (fun x => map f (g x)) l.
Proof. induction l as [|x l IH]; simpl; [done | by rewrite map_app, IH]. Qed.

Lemma flat_map_sublist {A B} (f g : A -> list B) (l : list A) :
  (forall x, f x `sublist_of` g x) -> flat_map f l `sublist_of` flat_map g l.
Proof.
  intros Hfg. induction l as [|x l IH]; simpl; [done |]. by apply sublist_app.
Qed.

Lemma map_slot_endpoints (api : Document) :
  map slot (endpoints (Parser.extractFromSpec api)) = declaredSlots api.
Proof.
  rewrite extractFromSpec_endpoints, map_flat_map. unfold declaredSlots.
  apply flat_map_ext. intros entry. apply map_slot_entryEndpoints.
Qed.

Lemma filtered_slots_sublist (path : string) (keep : string -> bool) (ms : list string) :
  map (fun method => (path, Js.toUpperCase method)) (List.filter keep ms)
  `sublist_of` map (fun method => (path, method)) (map Js.toUpperCase ms).
Proof.
  induction ms as [|m ms IH]; simpl; [done |].
  destruct (keep m); [by apply sublist_skip | by apply sublist_cons].
Qed.

Lemma declaredSlots_sublist (api : Document) :
  declaredSlots api `sublist_of` allSlots api.
Proof.
  apply flat_map_sublist. intros [path [[ref|pathItem]|]];
    try apply sublist_nil_l.
  apply (filtered_slots_sublist path _ Parser.methods).
Qed.

(** C5. For every resolved document, the endpoints come out in a fixed order:
    their (path, method) pairs are exactly the slots of the document that
    carry an operation, path templates taken in declaration order and, within
    one template, the methods in the order get, post, put, patch, delete,
    head, options; so the endpoint list is a subsequence of the whole grid of
    paths by methods laid out in that order. *)
Theorem extraction_order (api : Document) :
  map slot (endpoints (Parser.extractFromSpec api)) = declaredSlots api /\
  map slot (endpoints (Parser.extractFromSpec api)) `sublist_of` allSlots api.
Proof.
  split; [apply map_slot_endpoints |].
  rewrite map_slot_endpoints. apply declaredSlots_sublist.
Qed.

End ExtractionOrder.

(** ** C2: when synthesized identifiers coincide *)

Section Collisions.

Lemma extractEndpoint_synthesized path method operation pathParameters :
  op_operationId operation = None \/ op_operationId operation = Some EmptyString ->
  synthesized (Parser.extractEndpoint path method operation pathParameters).
Proof.
  unfold synthesized, Parser.extractEndpoint. simpl.
  by intros [-> | ->].
Qed.

(** In a document none of whose operations has an explicit identifier,
    every extracted endpoint carries a synthesized one. *)
Lemma extraction_synthesized (api : Document) (endpoint : OpenAPIEndpoint) :
  (forall path pathItem method operation,
     (path, Some (Resolved pathItem)) ∈ default [] (paths api) ->
     Parser.pathItem_get pathItem method = Some operation ->
     op_operationId operation = None) ->
  endpoint ∈ endpoints (Parser.extractFromSpec api) ->
  synthesized endpoint.
Proof.
  intros Hnone. rewrite extractFromSpec_endpoints, list_elem_of_In, in_flat_map.
  intros ([path [[ref|pathItem]|]] & Hentry & Hin); try done.
  apply in_flat_map in Hin as (m & _ & Hin). unfold slotEndpoints in Hin.
  destruct (Parser.pathItem_get pathItem m) as [operation|] eqn:Hop; [| done].
  destruct Hin as [<-|[]]. apply extractEndpoint_synthesized. left.
  apply (Hnone path pathItem m); [by apply list_elem_of_In | done].
Qed.

(** The capitalized names of the seven methods: none is a prefix of another. *)
Lemma method_prefix_free (m1 m2 x y : string) :
  m1 ∈ Parser.methods -> m2 ∈ Parser.methods ->
  Parser.capitalize (Js.toLowerCase (Js.toUpperCase m1)) +:+ x
  = Parser.capitalize (Js.toLowerCase (Js.toUpperCase m2)) +:+ y ->
  m1 = m2 /\ x = y.
Proof.
  unfold Parser.methods. intros H1 H2.
  repeat (apply elem_of_cons in H1 as [->|H1]); try (by apply elem_of_nil in H1);
    repeat (apply elem_of_cons in H2 as [->|H2]); try (by apply elem_of_nil in H2);
    vm_compute; intros [=]; by subst.
Qed.

Lemma entrySlots_elem (entry : string * option (OrRef PathItemObject)) (p m : string) :
  (p, m) ∈ entrySlots entry ->
  p = entry.1 /\ exists m0, m0 ∈ Parser.methods /\ m = Js.toUpperCase m0.
Proof.
  destruct entry as [path [[ref|pathItem]|]]; try by intros ?%elem_of_nil.
  intros (m0 & [= -> ->] & Hm0)%list_elem_of_fmap.
  apply list_elem_of_In, filter_In in Hm0 as [Hm0 _].
  split; [done |]. exists m0. by rewrite list_elem_of_In.
Qed.

Lemma entrySlots_NoDup (entry : string * option (OrRef PathItemObject)) :
  NoDup (entrySlots entry).
Proof.
  destruct entry as [path [[ref|pathItem]|]]; try constructor.
  eapply sublist_NoDup; [| apply (filtered_slots_sublist path _ Parser.methods)].
  apply (NoDup_fmap_2 (pair path)).
  apply (bool_decide_unpack _). by vm_compute.
Qed.

Lemma declaredSlots_method (api : Document) (p m : string) :
  (p, m) ∈ declaredSlots api -> exists m0, m0 ∈ Parser.methods /\ m = Js.toUpperCase m0.
Proof.
  unfold declaredSlots. rewrite list_elem_of_In, in_flat_map.
  intros (entry & _ & Hin). apply list_elem_of_In, entrySlots_elem in Hin. tauto.
Qed.

Lemma declaredSlots_NoDup (api : Document) :
  NoDup (Js.keys (default [] (paths api))) -> NoDup (declaredSlots api).
Proof.
  unfold declaredSlots, Js.keys.
  induction (default [] (paths api)) as [|entry entries IH]; cbn [flat_map map];
    [constructor |].
  intros Hkeys. apply NoDup_cons in Hkeys as [Hfresh Hkeys].
  apply NoDup_app. split_and!.
  - apply entrySlots_NoDup.
  - intros [p m] [-> _]%entrySlots_elem Hthere. apply Hfresh.
    apply list_elem_of_In, in_flat_map in Hthere as (entry' & Hentry & Hin).
    apply list_elem_of_In, entrySlots_elem in Hin as [-> _].
    apply list_elem_of_In in Hentry. by apply (list_elem_of_fmap_2 fst) in Hentry.
  - by apply IH.
Qed.

(** C2, as amended. In every extraction from a document (whose path
    templates are the keys of one object, hence pairwise distinct), two
    different endpoints that both carry a synthesized identifier have the same
    [operationId] exactly when they have the same method and their two
    distinct path templates render to the same concatenation of segment
    outputs. So synthesized identifiers never collide within one path
    template, nor across templates whose renderings differ. *)
Theorem synthesized_ids_equal_iff (api : Document) (i j : nat)
    (e1 e2 : OpenAPIEndpoint) :
  NoDup (Js.keys (default [] (paths api))) ->
  endpoints (Parser.extractFromSpec api) !! i = Some e1 ->
  endpoints (Parser.extractFromSpec api) !! j = Some e2 ->
  i <> j ->
  synthesized e1 -> synthesized e2 ->
  (operationId e1 = operationId e2 <->
   method e1 = method e2 /\ path e1 <> path e2 /\
   Parser.pathParts (path e1) = Parser.pathParts (path e2)).
Proof.
  intros Hkeys Hi Hj Hij Hs1 Hs2.
  pose proof (declaredSlots_NoDup api Hkeys) as Hnodup.
  rewrite <- map_slot_endpoints in Hnodup.
  assert (slot e1 <> slot e2) as Hslots.
  { intros Heq. apply Hij. eapply (NoDup_lookup _ i j (slot e1) Hnodup).
    - map_as_fmap. by rewrite list_lookup_fmap, Hi.
    - map_as_fmap. by rewrite list_lookup_fmap, Hj, Heq. }
  assert (forall e k, endpoints (Parser.extractFromSpec api) !! k = Some e ->
            exists m0, m0 ∈ Parser.methods /\ method e = Js.toUpperCase m0) as Hmethod.
  { intros e k Hk. apply (declaredSlots_method api (path e)).
    rewrite <- map_slot_endpoints. map_as_fmap.
    apply (list_elem_of_fmap_2 slot). by eapply list_elem_of_lookup_2. }
  destruct (Hmethod e1 i Hi) as (m1 & Hm1 & Heq1).
  destruct (Hmethod e2 j Hj) as (m2 & Hm2 & Heq2).
  unfold synthesized in Hs1, Hs2. rewrite Hs1, Hs2.
  unfold Parser.generateOperationId. split.
  - rewrite Heq1, Heq2. intros Hid.
    destruct (method_prefix_free _ _ _ _ Hm1 Hm2 Hid) as [-> Hparts].
    split_and!; [done | | done].
    intros Hpath. apply Hslots. unfold slot. by rewrite Hpath, Heq1, Heq2.
  - by intros (-> & _ & ->).
Qed.

Lemma synthesized_ids_equal_iff_witness :
  "GetOrders" = "GetOrdersById" <->
  "GET" = "GET" /\ "/Orders" <> "/Orders/{id}" /\
  Parser.pathParts "/Orders" = Parser.pathParts "/Orders/{id}".
Proof.
  pose (e1 := Parser.extractEndpoint "/Orders" "GET" Samples.operation None).
  pose (e2 := Parser.extractEndpoint "/Orders/{id}" "GET" Samples.operation None).
  apply (synthesized_ids_equal_iff Samples.ordersApi 0 2 e1 e2).
  - apply (bool_decide_unpack _). by vm_compute.
  - reflexivity.
  - reflexivity.
  - lia.
  - reflexivity.
  - reflexivity.
Defined.

(** C2 fails as stated: [/users/{id}] and [/users/by/id], both with a [get]
    operation that has no explicit identifier, are two distinct (path, method)
    pairs of one document and both receive [GetUsersById]. *)
Lemma synthesized_ids_collide :
  map (fun e => (method e, path e, operationId e))
    (endpoints (Parser.extractFromSpec Samples.collidingApi))
  = [ ("GET", "/users/{id}", "GetUsersById");
      ("GET", "/users/by/id", "GetUsersById") ] /\
  ("/users/{id}", "GET") <> ("/users/by/id", "GET") /\
  Parser.generateOperationId "GET" "/users/{id}"
  = Parser.generateOperationId "GET" "/users/by/id".
Proof. split_and!; [by vm_compute | discriminate | by vm_compute]. Qed.

End Collisions.

(** ** C4, C9, C10: the input schema *)

Section InputSchemas.

Lemma fold_addParameter (params : list EndpointParameter)
    (properties : gmap string JSONSchemaType) (required : list string) :
  fold_left Mapper.addParameter params (properties, required)
  = (fold_left (fun properties param =>
                  <[param_name param := Mapper.paramProperty param]> properties)
       params properties,
     required ++ map param_name (List.filter param_required params)).
Proof.
  revert properties required. induction params as [|p params IH];
    intros properties required; simpl.
  - by rewrite app_nil_r.
  - rewrite IH. f_equal. unfold Js.push.
    destruct (param_required p); simpl; [by rewrite <- app_assoc | done].
Qed.

(** [buildInputSchema], loop-free. *)
Lemma buildInputSchema_unfold (endpoint : OpenAPIEndpoint) :
  Mapper.buildInputSchema endpoint =
  let required :=
    requiredParameters endpoint ++ (if bodyRequired endpoint then ["requestBody"] else []) in
  {| schema_type := "object";
     schema_properties :=
       match requestBody endpoint with
       | Some body =>
           <["requestBody" := Mapper.bodyProperty body]>
             (parameterProperties (parameters endpoint))
       | None => parameterProperties (parameters endpoint)
       end;
     schema_required := if (0 <? length required)%nat then Some required else None |}.
Proof.
  unfold Mapper.buildInputSchema, bodyRequired, requiredParameters, parameterProperties.
  rewrite fold_addParameter. cbn [app].
  destruct (requestBody endpoint) as [body|]; [| by rewrite app_nil_r].
  unfold Js.push. destruct (body_required body); [done | by rewrite app_nil_r].
Qed.

Lemma filter_required_nil (params : list EndpointParameter) :
  List.filter param_required params = []
  <-> forallb (fun p => negb (param_required p)) params = true.
Proof.
  induction params as [|p params IH]; simpl; [done |].
  destruct (param_required p); simpl; [by split | apply IH].
Qed.

(** C4. For every endpoint, the input schema has no [required] key at all
    when no parameter is required and there is no required request body;
    otherwise [required] is present and lists the names of the required
    parameters in declaration order, followed by ["requestBody"] last when
    the endpoint has a required body. It is never present as an empty
    array. *)
Theorem required_omitted_or_ordered (endpoint : OpenAPIEndpoint) :
  schema_required (Mapper.buildInputSchema endpoint)
  = (if forallb (fun p => negb (param_required p)) (parameters endpoint)
        && negb (bodyRequired endpoint)
     then None
     else Some (requiredParameters endpoint
                ++ (if bodyRequired endpoint then ["requestBody"] else []))) /\
  schema_required (Mapper.buildInputSchema endpoint) <> Some [].
Proof.
  rewrite buildInputSchema_unfold. cbn [schema_required].
  unfold requiredParameters.
  destruct (forallb _ _) eqn:Hnone.
  - apply filter_required_nil in Hnone. rewrite Hnone.
    destruct (bodyRequired endpoint); by split.
  - assert (List.filter param_required (parameters endpoint) <> []) as Hsome.
    { intros Hnil%filter_required_nil. congruence. }
    destruct (List.filter param_required (parameters endpoint)) as [|q qs]; [done |].
    by split.
Qed.

Lemma requiredList_eq (endpoint : OpenAPIEndpoint) :
  requiredList endpoint
  = requiredParameters endpoint
    ++ (if bodyRequired endpoint then ["requestBody"] else []).
Proof.
  unfold requiredList. rewrite buildInputSchema_unfold. cbn [schema_required].
  by destruct (requiredParameters endpoint ++ _).
Qed.

Lemma occurrences_requiredParameters (name : string) (params : list EndpointParameter) :
  occurrences name (map param_name (List.filter param_required params))
  = requiredCopies name params.
Proof.
  unfold requiredCopies, occurrences. induction params as [|p params IH]; [done |].
  cbn [List.filter]. destruct (param_required p); cbn [andb map List.filter]; [| done].
  rewrite (String.eqb_sym name). destruct (String.eqb (param_name p) name); [| done].
  cbn [length]. by rewrite IH.
Qed.

(** How often a name occurs in [required]: once for every required parameter
    of that name, and once more for a required body if the name is
    ["requestBody"]. *)
Lemma occurrences_requiredList (endpoint : OpenAPIEndpoint) (name : string) :
  occurrences name (requiredList endpoint)
  = (requiredCopies name (parameters endpoint)
     + (if bodyRequired endpoint && String.eqb name "requestBody" then 1 else 0))%nat.
Proof.
  rewrite requiredList_eq. unfold occurrences at 1. rewrite List.filter_app, length_app.
  fold (occurrences name (requiredParameters endpoint)). unfold requiredParameters.
  rewrite occurrences_requiredParameters. f_equal.
  destruct (bodyRequired endpoint); [| done]. cbn [List.filter andb].
  by destruct (String.eqb name "requestBody").
Qed.

Lemma requiredCopies_app (name : string) (ps qs : list EndpointParameter) :
  requiredCopies name (ps ++ qs)
  = (requiredCopies name ps + requiredCopies name qs)%nat.
Proof. unfold requiredCopies. by rewrite List.filter_app, length_app. Qed.

Lemma requiredCopies_elem (name : string) (p : EndpointParameter)
    (params : list EndpointParameter) :
  p ∈ params -> param_required p = true -> param_name p = name ->
  (1 <= requiredCopies name params)%nat.
Proof.
  intros Hin Hreq Hname. unfold requiredCopies.
  assert (In p (List.filter
                  (fun p => param_required p && String.eqb (param_name p) name) params))
    as Hp.
  { apply filter_In. split; [by apply list_elem_of_In |].
    rewrite Hreq, Hname. by rewrite String.eqb_refl. }
  destruct (List.filter _ params); [done | simpl; lia].
Qed.

Lemma fold_insert_other (params : list EndpointParameter)
    (properties : gmap string JSONSchemaType) (name : string) :
  (forall q, q ∈ params -> param_name q <> name) ->
  fold_left (fun properties param =>
               <[param_name param := Mapper.paramProperty param]> properties)
    params properties !! name
  = properties !! name.
Proof.
  revert properties. induction params as [|p params IH]; intros properties Hne;
    [done |].
  cbn [fold_left]. rewrite IH by (intros q Hq; apply Hne; by right).
  apply lookup_insert_ne. apply Hne. by left.
Qed.

(** Last write wins in the parameter loop. *)
Lemma parameterProperties_last (before after : list EndpointParameter)
    (p : EndpointParameter) :
  (forall q, q ∈ after -> param_name q <> param_name p) ->
  parameterProperties (before ++ p :: after) !! param_name p
  = Some (Mapper.paramProperty p).
Proof.
  intros Hafter. unfold parameterProperties. rewrite fold_left_app. cbn [fold_left].
  rewrite fold_insert_other by done. apply lookup_insert_eq.
Qed.

Lemma extractEndpoint_parameters path method operation pathParameters :
  parameters (Parser.extractEndpoint path method operation pathParameters)
  = keptParameters (default [] pathParameters)
    ++ keptParameters (default [] (op_parameters operation)).
Proof.
  unfold Parser.extractEndpoint. simpl. unfold keptParameters.
  rewrite <- flat_map_app. rewrite (fold_left_pushes _ (fun param =>
    match param with Reference _ => [] | Resolved p => [Parser.extractParameter p] end));
    [done |].
  intros acc [ref|p]; [by rewrite app_nil_r | done].
Qed.

Lemma keptParameters_elem (declared : list (OrRef ParameterObject))
    (q : EndpointParameter) :
  q ∈ keptParameters declared
  <-> exists p, Resolved p ∈ declared /\ q = Parser.extractParameter p.
Proof.
  unfold keptParameters. rewrite list_elem_of_In, in_flat_map. split.
  - intros ([ref|p] & Hin & Hq); [done |]. apply list_elem_of_In in Hin.
    exists p. split; [done |]. by destruct Hq as [<-|[]].
  - intros (p & Hin & ->). exists (Resolved p). rewrite <- list_elem_of_In.
    split; [done | by left].
Qed.

Lemma obj_get_set {V} (o : list (string * V)) (k : string) (v : V) :
  Js.obj_get (Js.obj_set o k v) k = Some v.
Proof.
  induction o as [|[k' v'] o IH]; simpl.
  - by rewrite String.eqb_refl.
  - destruct (String.eqb k' k) eqn:Hk; simpl.
    + by rewrite String.eqb_refl.
    + by rewrite Hk.
Qed.

(** C9, as amended. When a path-level and an operation-level parameter of one
    name are both kept, and the name is not [requestBody] on an endpoint that
    has a request body, the [properties] entry for the name is the property
    written for the operation-level parameter (the last one of that name):
    last write wins. The name occurs in [required] once per required
    parameter of that name, hence at least twice when both copies are
    required. *)
Theorem operation_parameter_wins (path method : string) (operation : OperationObject)
    (pathParameters : option (list (OrRef ParameterObject)))
    (pp op : ParameterObject) (before after : list (OrRef ParameterObject)) :
  let endpoint := Parser.extractEndpoint path method operation pathParameters in
  Resolved pp ∈ default [] pathParameters ->
  op_parameters operation = Some (before ++ Resolved op :: after) ->
  (forall q, Resolved q ∈ after -> po_name q <> po_name op) ->
  po_name pp = po_name op ->
  po_name op <> "requestBody" \/ requestBody endpoint = None ->
  schema_properties (Mapper.buildInputSchema endpoint) !! po_name op
  = Some (Mapper.paramProperty (Parser.extractParameter op)) /\
  occurrences (po_name op) (requiredList endpoint)
  = requiredCopies (po_name op) (parameters endpoint) /\
  (Js.or_false (po_required pp) = true -> Js.or_false (po_required op) = true ->
   (2 <= occurrences (po_name op) (requiredList endpoint))%nat).
Proof.
  intros endpoint Hpp Hop Hafter Hname Hbody.
  assert (parameters endpoint
          = (keptParameters (default [] pathParameters) ++ keptParameters before)
            ++ Parser.extractParameter op :: keptParameters after) as Hparams.
  { unfold endpoint. rewrite extractEndpoint_parameters, Hop.
    change (default [] (Some ?l)) with l. unfold keptParameters. rewrite flat_map_app. cbn [flat_map app].
    by rewrite <- app_assoc. }
  assert (occurrences (po_name op) (requiredList endpoint)
          = requiredCopies (po_name op) (parameters endpoint)) as Hcount.
  { rewrite occurrences_requiredList. unfold bodyRequired.
    destruct Hbody as [Hne | ->]; [| cbn [andb]; lia].
    apply String.eqb_neq in Hne. rewrite Hne, andb_false_r. lia. }
  split_and!; [| done |].
  - rewrite buildInputSchema_unfold. cbn [schema_properties].
    assert (parameterProperties (parameters endpoint) !! po_name op
            = Some (Mapper.paramProperty (Parser.extractParameter op))) as Hlast.
    { rewrite Hparams.
      apply (parameterProperties_last _ _ (Parser.extractParameter op)).
      intros q (p & Hp & ->)%keptParameters_elem. by apply Hafter. }
    destruct Hbody as [Hne | ->]; [| done].
    destruct (requestBody endpoint); [| done].
    by rewrite lookup_insert_ne.
  - intros Hrpp Hrop. rewrite Hcount, Hparams, !requiredCopies_app.
    assert (1 <= requiredCopies (po_name op) (keptParameters (default [] pathParameters)))%nat.
    { apply (requiredCopies_elem _ (Parser.extractParameter pp)); [| done | done].
      apply keptParameters_elem. by exists pp. }
    assert (1 <= requiredCopies (po_name op)
                   (Parser.extractParameter op :: keptParameters after))%nat.
    { apply (requiredCopies_elem _ (Parser.extractParameter op)); [by left | done | done]. }
    lia.
Qed.

Lemma operation_parameter_wins_witness :
  schema_properties (Mapper.buildInputSchema Samples.overriddenEndpoint) !! "id"
  = Some [("type", Js.Str "integer"); ("description", Js.Undefined)] /\
  occurrences "id" (requiredList Samples.overriddenEndpoint) = 2%nat /\
  (true = true -> true = true ->
   (2 <= occurrences "id" (requiredList Samples.overriddenEndpoint))%nat).
Proof.
  apply (operation_parameter_wins "/items/{id}" "GET" Samples.overriddenOperation
           (Some [Resolved (Samples.parameter "id" "string" true)])
           (Samples.parameter "id" "string" true)
           (Samples.parameter "id" "integer" true) [] []).
  - by left.
  - reflexivity.
  - by intros q ?%elem_of_nil.
  - reflexivity.
  - left. discriminate.
Defined.

(** C9 fails as stated when the shared name is [requestBody] and the endpoint
    has a body: the entry holds the body schema, not the operation-level
    parameter's. *)
Lemma parameter_named_requestBody_loses :
  parameters Samples.shadowedEndpoint
  = [ Parser.extractParameter (Samples.parameter "requestBody" "string" true);
      Parser.extractParameter (Samples.parameter "requestBody" "integer" true) ] /\
  schema_properties (Mapper.buildInputSchema Samples.shadowedEndpoint) !! "requestBody"
  = Some [("type", Js.Str "object");
          ("description", Js.Str "The JSON request body.")] /\
  schema_properties (Mapper.buildInputSchema Samples.shadowedEndpoint) !! "requestBody"
  <> Some (Mapper.paramProperty
             (Parser.extractParameter (Samples.parameter "requestBody" "integer" true))).
Proof.
  assert (schema_properties (Mapper.buildInputSchema Samples.shadowedEndpoint)
            !! "requestBody"
          = Some [("type", Js.Str "object");
                  ("description", Js.Str "The JSON request body.")]) as Hentry.
  { rewrite buildInputSchema_unfold. cbn [schema_properties].
    change (requestBody Samples.shadowedEndpoint)
      with (Some {| body_required := true; body_contentType := "application/json";
                    body_schema := [("type", Js.Str "object")] |}).
    cbv iota. by rewrite lookup_insert_eq. }
  split_and!; [done | done |]. rewrite Hentry. by vm_compute.
Qed.

(** C10. On an endpoint with a parameter named [requestBody] and a request
    body, [properties.requestBody] is the body schema carrying the fixed
    description ["The JSON request body."], whatever the parameter wrote
    there; [requestBody] occurs in [required] once per required parameter
    of that name plus once for a required body, so twice or more when the
    parameter and the body are both required. *)
Theorem requestBody_entry_is_body (endpoint : OpenAPIEndpoint)
    (p : EndpointParameter) (body : RequestBodySchema) :
  p ∈ parameters endpoint ->
  param_name p = "requestBody" ->
  requestBody endpoint = Some body ->
  schema_properties (Mapper.buildInputSchema endpoint) !! "requestBody"
  = Some (Js.obj_set (body_schema body) "description"
            (Js.Str "The JSON request body.")) /\
  Js.obj_get
    (Js.obj_set (body_schema body) "description" (Js.Str "The JSON request body."))
    "description"
  = Some (Js.Str "The JSON request body.") /\
  occurrences "requestBody" (requiredList endpoint)
  = (requiredCopies "requestBody" (parameters endpoint)
     + (if body_required body then 1 else 0))%nat /\
  (param_required p = true -> body_required body = true ->
   (2 <= occurrences "requestBody" (requiredList endpoint))%nat).
Proof.
  intros Hp Hname Hbody.
  assert (occurrences "requestBody" (requiredList endpoint)
          = (requiredCopies "requestBody" (parameters endpoint)
             + (if body_required body then 1 else 0))%nat) as Hcount.
  { rewrite occurrences_requiredList. unfold bodyRequired. rewrite Hbody.
    by rewrite andb_true_r. }
  split_and!; [| apply obj_get_set | done |].
  - rewrite buildInputSchema_unfold. cbn [schema_properties]. rewrite Hbody.
    apply lookup_insert_eq.
  - intros Hrp Hrb. rewrite Hcount, Hrb.
    pose proof (requiredCopies_elem "requestBody" p (parameters endpoint) Hp Hrp Hname).
    lia.
Qed.

Lemma requestBody_entry_is_body_witness :
  schema_properties (Mapper.buildInputSchema Samples.clashingEndpoint) !! "requestBody"
  = Some [("type", Js.Str "object"); ("description", Js.Str "The JSON request body.")] /\
  Some (Js.Str "The JSON request body.") = Some (Js.Str "The JSON request body.") /\
  occurrences "requestBody" (requiredList Samples.clashingEndpoint) = 2%nat /\
  (true = true -> true = true ->
   (2 <= occurrences "requestBody" (requiredList Samples.clashingEndpoint))%nat).
Proof.
  apply (requestBody_entry_is_body Samples.clashingEndpoint
           (Parser.extractParameter (Samples.parameter "requestBody" "integer" true))
           {| body_required := true; body_contentType := "application/json";
              body_schema := [("type", Js.Str "object")] |}).
  - by left.
  - reflexivity.
  - reflexivity.
Defined.

End InputSchemas.

(** ** C3, C8: filtering *)

Section Filtering.

Lemma upper_lower_char (c : ascii) :
  Js.upper_char c = c -> Js.upper_char (Js.lower_char c) = c.
Proof.
  destruct c as [[] [] [] [] [] [] [] []]; vm_compute; congruence.
Qed.

(** Lower-casing loses nothing of a method that is already in upper case. *)
Lemma toUpperCase_toLowerCase (s : string) :
  Js.toUpperCase s = s -> Js.toUpperCase (Js.toLowerCase s) = s.
Proof.
  induction s as [|c s IH]; [done |]. simpl. intros [= Hc Hs].
  by rewrite upper_lower_char, IH.
Qed.

Lemma toUpperCase_idemp (s : string) :
  Js.toUpperCase (Js.toUpperCase s) = Js.toUpperCase s.
Proof.
  induction s as [|c s IH]; [done |]. simpl. rewrite IH. f_equal.
  destruct c as [[] [] [] [] [] [] [] []]; by vm_compute.
Qed.

(** Extraction stores every method in upper case. *)
Lemma extracted_method_upper (api : Document) (endpoint : OpenAPIEndpoint) :
  endpoint ∈ endpoints (Parser.extractFromSpec api) ->
  Js.toUpperCase (method endpoint) = method endpoint.
Proof.
  intros Hin. apply (list_elem_of_fmap_2 slot) in Hin.
  change (slot <$> ?l) with (map slot l) in Hin. rewrite map_slot_endpoints in Hin.
  apply declaredSlots_method in Hin as (m0 & _ & ->). apply toUpperCase_idemp.
Qed.

Lemma filter_sublist {A} (keep : A -> bool) (l : list A) :
  List.filter keep l `sublist_of` l.
Proof.
  induction l as [|x l IH]; simpl; [done |].
  destruct (keep x); [by apply sublist_skip | by apply sublist_cons].
Qed.

(** C3, as amended. Filtering by a supplied key set keeps a subsequence of
    the endpoints, so it returns at most as many tools as there are endpoints,
    and every returned tool maps an endpoint whose key, the endpoint's method
    exactly as it is stored, a colon and the path template as declared, is
    in the set. The mapper does not change the case of the method: the key
    is the upper-case method, colon, path (the key rebuilt from the tool)
    for the endpoints whose method is stored in upper case, as extraction
    stores it. *)
Theorem filtering_is_subset (E : list OpenAPIEndpoint) (enabled : gset string) :
  (length (Mapper.mapToMcpTools E (Some enabled)) <= length E)%nat /\
  exists kept : list OpenAPIEndpoint,
    kept `sublist_of` E /\
    Mapper.mapToMcpTools E (Some enabled) = map Mapper.mapEndpointToTool kept /\
    forall endpoint, endpoint ∈ kept ->
      Mapper.getEndpointKey endpoint = method endpoint +:+ ":" +:+ path endpoint /\
      Mapper.getEndpointKey endpoint ∈ enabled /\
      (Js.toUpperCase (method endpoint) = method endpoint ->
       toolKey (Mapper.mapEndpointToTool endpoint) ∈ enabled).
Proof.
  unfold Mapper.mapToMcpTools. split.
  - rewrite length_map. apply filter_length_le.
  - exists (List.filter (Mapper.isEnabled (Some enabled)) E).
    split_and!; [apply filter_sublist | done |].
    intros endpoint [_ Hkey]%list_elem_of_In%filter_In.
    apply bool_decide_eq_true in Hkey.
    split_and!; [done | done |].
    intros Hupper. unfold toolKey. cbn [Mapper.mapEndpointToTool httpMethod pathTemplate].
    by rewrite toUpperCase_toLowerCase.
Qed.

Lemma filtering_is_subset_witness :
  let E := endpoints (Parser.extractFromSpec Samples.ordersApi) in
  let enabled : gset string := {["GET:/Orders"; "DELETE:/Orders/{id}"]} in
  (length (Mapper.mapToMcpTools E (Some enabled)) <= length E)%nat /\
  exists kept : list OpenAPIEndpoint,
    kept `sublist_of` E /\
    Mapper.mapToMcpTools E (Some enabled) = map Mapper.mapEndpointToTool kept /\
    forall endpoint, endpoint ∈ kept ->
      Mapper.getEndpointKey endpoint = method endpoint +:+ ":" +:+ path endpoint /\
      Mapper.getEndpointKey endpoint ∈ enabled /\
      (Js.toUpperCase (method endpoint) = method endpoint ->
       toolKey (Mapper.mapEndpointToTool endpoint) ∈ enabled).
Proof.
  intros E enabled. apply (filtering_is_subset E enabled).
Defined.

(** C3 fails as stated on an endpoint whose method is not stored in upper
    case: the tool is returned because ["get:/users"] is in the set, while the
    key made of the upper-case method, ["GET:/users"], is not. *)
Lemma filtering_key_not_upper :
  map toolKey (Mapper.mapToMcpTools [Samples.lowerCaseEndpoint] (Some {["get:/users"]}))
  = ["GET:/users"] /\
  "GET:/users" ∉ ({["get:/users"]} : gset string).
Proof.
  split.
  - unfold Mapper.mapToMcpTools. cbn [List.filter Mapper.isEnabled].
    rewrite bool_decide_true by (by apply elem_of_singleton). by vm_compute.
  - by intros ?%elem_of_singleton.
Qed.

(** C8. Filtering by the set of all keys of the endpoints themselves keeps
    every endpoint: the tools are those of the unfiltered mapping, one per
    endpoint and in the same order, the i-th tool mapping the i-th
    endpoint. *)
Theorem filter_by_all_keys (E : list OpenAPIEndpoint) :
  Mapper.mapToMcpTools E (Some (list_to_set (Mapper.getAllEndpointKeys E)))
  = map Mapper.mapEndpointToTool E /\
  Mapper.mapToMcpTools E (Some (list_to_set (Mapper.getAllEndpointKeys E)))
  = Mapper.mapToMcpTools E None /\
  length (Mapper.mapToMcpTools E (Some (list_to_set (Mapper.getAllEndpointKeys E))))
  = length E /\
  forall i : nat,
    Mapper.mapToMcpTools E (Some (list_to_set (Mapper.getAllEndpointKeys E))) !! i
    = Mapper.mapEndpointToTool <$> E !! i.
Proof.
  assert (List.filter
            (Mapper.isEnabled (Some (list_to_set (Mapper.getAllEndpointKeys E)))) E
          = E) as Hall.
  { apply forallb_filter_id, forallb_forall. intros endpoint Hin.
    apply bool_decide_eq_true, elem_of_list_to_set.
    apply list_elem_of_In in Hin.
    apply (list_elem_of_fmap_2 Mapper.getEndpointKey) in Hin. exact Hin. }
  assert (List.filter (Mapper.isEnabled None) E = E) as Hnone.
  { apply forallb_filter_id, forallb_forall. by intros. }
  unfold Mapper.mapToMcpTools. rewrite Hall, Hnone.
  split_and!; [done | done | apply length_map |].
  intros i. map_as_fmap. apply list_lookup_fmap.
Qed.

End Filtering.

(** ** C6: the media type of a request body *)

Section MediaTypes.

(** C6, as amended. At most one media type is retained, and which one is
    decided by the schemas: [application/json] when it is declared with a
    schema; otherwise the first declared content type, provided its name is
    not empty and it has a schema; otherwise no body is retained at all.
    What is retained is a declared media type with its own schema. *)
Theorem one_media_type_retained (body : RequestBodyObject) :
  (forall schema, jsonSchema body = Some schema ->
     Parser.extractRequestBody body = Some (retained body "application/json" schema)) /\
  (forall contentType mediaType rest,
     jsonSchema body = None ->
     rbo_content body = Some ((contentType, mediaType) :: rest) ->
     Parser.extractRequestBody body
     = if Js.truthy contentType
       then retained body contentType <$> media_schema mediaType
       else None) /\
  (jsonSchema body = None ->
   rbo_content body = None \/ rbo_content body = Some [] ->
   Parser.extractRequestBody body = None) /\
  (forall descriptor, Parser.extractRequestBody body = Some descriptor ->
     exists mediaType,
       Js.obj_get (default [] (rbo_content body)) (body_contentType descriptor)
       = Some mediaType /\
       media_schema mediaType = Some (body_schema descriptor)).
Proof.
  unfold jsonSchema, Parser.extractRequestBody, retained. split_and!.
  - by intros schema ->.
  - intros contentType mediaType rest -> ->. cbn [default from_option id head].
    destruct (Js.truthy contentType), (media_schema mediaType); done.
  - by intros -> [-> | ->].
  - intros descriptor.
    destruct (rbo_content body) as [content|]; [| done]. cbn [mbind option_bind].
    destruct (Js.obj_get content "application/json") as [json|] eqn:Hjson.
    + cbn [mbind option_bind]. destruct (media_schema json) as [schema|] eqn:Hschema.
      * intros [= <-]. by exists json.
      * destruct content as [|[contentType mediaType] rest]; [done |].
        cbn [default from_option id head].
        destruct (Js.truthy contentType), (media_schema mediaType) eqn:Hfirst;
          try done.
        intros [= <-]. exists mediaType. cbn [body_contentType body_schema Js.obj_get].
        by rewrite String.eqb_refl.
    + cbn [mbind option_bind].
      destruct content as [|[contentType mediaType] rest]; [done |].
      cbn [default from_option id head].
      destruct (Js.truthy contentType), (media_schema mediaType) eqn:Hfirst;
        try done.
      intros [= <-]. exists mediaType. cbn [body_contentType body_schema Js.obj_get].
      by rewrite String.eqb_refl.
Qed.

Lemma one_media_type_retained_witness :
  Parser.extractRequestBody Samples.textBody
  = Some {| body_required := false; body_contentType := "text/plain";
            body_schema := [("type", Js.Str "string")] |}.
Proof.
  destruct (one_media_type_retained Samples.textBody) as (_ & Hfirst & _).
  apply (Hfirst "text/plain" {| media_schema := Some [("type", Js.Str "string")] |} []).
  - reflexivity.
  - reflexivity.
Defined.

(** C6 fails as stated when [application/json] is declared without a
    schema: it is declared, and the plain-text media type declared before it
    is the one retained. *)
Lemma declared_json_not_retained :
  is_Some (Js.obj_get (default [] (rbo_content Samples.schemalessJsonBody))
             "application/json") /\
  body_contentType <$> Parser.extractRequestBody Samples.schemalessJsonBody
  = Some "text/plain".
Proof. split; [by eexists | by vm_compute]. Qed.

End MediaTypes.

(** ** C7: the generated bundle *)

Section Bundle.

Variable generatePackageJson : Generator.GeneratorOptions -> string.
Variable generateTsConfig : string.
Variable generateServerEntry :
  list McpToolDefinition -> Generator.GeneratorOptions ->
  list (string * SecurityScheme) -> string.
Variable generateTransport : Generator.GeneratorOptions -> string.
Variable generateEnvExample :
  list McpToolDefinition -> list (string * SecurityScheme) ->
  Generator.GeneratorOptions -> string.
Variable generateReadme : Generator.GeneratorOptions -> string.

(** C7. Whatever the tools, the options (telemetry on or off, OAuth
    configured or not) and the security schemes (given or left to their
    default), the bundle has exactly the six keys [package.json],
    [tsconfig.json], [src/index.ts], [src/transport.ts], [.env.example] and
    [README.md], in this order and each once. *)
Theorem bundle_keys (tools : list McpToolDefinition)
    (options : Generator.GeneratorOptions)
    (securitySchemes : option (list (string * SecurityScheme))) :
  Js.keys
    (Generator.generateMcpServer generatePackageJson generateTsConfig
       generateServerEntry generateTransport generateEnvExample generateReadme
       tools options securitySchemes)
  = ["package.json"; "tsconfig.json"; "src/index.ts"; "src/transport.ts";
     ".env.example"; "README.md"].
Proof. reflexivity. Qed.

End Bundle.

(** * Further properties of the sources *)

(** ** parser.ts: the synthesizer *)

Section SynthesizerShape.






(** Splitting a text with a slash in the middle splits both sides. *)
Lemma split_slash (a b : string) :
  Js.split "/" (a +:+ "/" +:+ b) = Js.split "/" a ++ Js.split "/" b.
Proof.
  induction a as [|c a IH]; [done |].
  change (String c a +:+ "/" +:+ b) with (String c (a +:+ "/" +:+ b)).
  cbn [Js.split]. rewrite IH.
  destruct (split_cons "/" a) as (w & ws & ->).
  by destruct (Ascii.eqb c "/").
Qed.

Lemma join_app (xs ys : list string) :
  Js.join (xs ++ ys) = Js.join xs +:+ Js.join ys.
Proof.
  induction xs as [|x xs IH]; [done |]. cbn [app Js.join fold_right].
  fold (Js.join (xs ++ ys)). fold (Js.join xs). by rewrite IH, append_assoc.
Qed.

Lemma pathParts_join (a b : string) :
  Parser.pathParts (a +:+ "/" +:+ b) = Parser.pathParts a +:+ Parser.pathParts b.
Proof.
  unfold Parser.pathParts.
  by rewrite split_slash, List.filter_app, map_app, join_app.
Qed.

(** X2. Identifiers compose along the path: the rendering of two templates
    joined by a slash is the rendering of the first followed by that of the
    second. *)
Theorem generateOperationId_joined (method a b : string) :
  Parser.generateOperationId method (a +:+ "/" +:+ b)
  = Parser.generateOperationId method a +:+ Parser.pathParts b.
Proof.
  unfold Parser.generateOperationId. by rewrite pathParts_join, append_assoc.
Qed.

(** X3. Slashes only separate: a trailing slash, a leading slash or a
    doubled slash in the template does not change the identifier. *)
Theorem generateOperationId_extra_slashes (method a b : string) :
  Parser.generateOperationId method (a +:+ "/") = Parser.generateOperationId method a /\
  Parser.generateOperationId method ("/" +:+ a) = Parser.generateOperationId method a /\
  Parser.generateOperationId method (a +:+ "//" +:+ b)
  = Parser.generateOperationId method (a +:+ "/" +:+ b).
Proof.
  unfold Parser.generateOperationId. split_and!.
  - change (a +:+ "/") with (a +:+ "/" +:+ "").
    by rewrite pathParts_join, append_empty_r.
  - change ("/" +:+ a) with ("" +:+ "/" +:+ a). by rewrite pathParts_join.
  - change (a +:+ "//" +:+ b) with (a +:+ "/" +:+ ("" +:+ "/" +:+ b)).
    by rewrite !pathParts_join.
Qed.

End SynthesizerShape.

(** ** parser.ts: the extractor *)

Section ExtractionFacts.

Lemma endpoints_provenance (api : Document) (endpoint : OpenAPIEndpoint) :
  endpoint ∈ endpoints (Parser.extractFromSpec api) <->
  exists path pathItem m operation,
    (path, Some (Resolved pathItem)) ∈ default [] (paths api) /\
    m ∈ Parser.methods /\
    Parser.pathItem_get pathItem m = Some operation /\
    endpoint
    = Parser.extractEndpoint path (Js.toUpperCase m) operation (pi_parameters pathItem).
Proof.
  rewrite extractFromSpec_endpoints, list_elem_of_In, in_flat_map. split.
  - intros ([path [[ref|pathItem]|]] & Hentry & Hin); try done.
    apply in_flat_map in Hin as (m & Hm & Hin). unfold slotEndpoints in Hin.
    destruct (Parser.pathItem_get pathItem m) as [operation|] eqn:Hop; [| done].
    destruct Hin as [<-|[]]. exists path, pathItem, m, operation.
    by rewrite !list_elem_of_In.
  - intros (path & pathItem & m & operation & Hentry & Hm & Hop & ->).
    exists (path, Some (Resolved pathItem)). split; [by apply list_elem_of_In |].
    apply in_flat_map. exists m. split; [by apply list_elem_of_In |].
    unfold slotEndpoints. rewrite Hop. by left.
Qed.

(** X4. Extraction is exact: the endpoints are those, and only those,
    extracted from an operation that a non-reference path item declares
    under one of the seven methods, with the method in upper case and the
    path item's own parameters. Reference and null path items and any other
    key of a path item contribute nothing. *)
Theorem extraction_exact (api : Document) (endpoint : OpenAPIEndpoint) :
  endpoint ∈ endpoints (Parser.extractFromSpec api) <->
  exists path pathItem m operation,
    (path, Some (Resolved pathItem)) ∈ default [] (paths api) /\
    m ∈ ["get"; "post"; "put"; "patch"; "delete"; "head"; "options"] /\
    Parser.pathItem_get pathItem m = Some operation /\
    endpoint
    = Parser.extractEndpoint path (Js.toUpperCase m) operation (pi_parameters pathItem).
Proof. apply endpoints_provenance. Qed.

Lemma synthesized_nonempty (m path : string) :
  m ∈ Parser.methods ->
  Parser.generateOperationId (Js.toUpperCase m) path <> EmptyString.
Proof.
  unfold Parser.methods. intros Hm.
  repeat (apply elem_of_cons in Hm as [->|Hm]); try (by apply elem_of_nil in Hm);
    vm_compute; discriminate.
Qed.

(** X5. No extracted endpoint has an empty [operationId]: an explicit
    identifier is used only when it is not empty, and the synthesized one
    starts with the method. *)
Theorem extracted_operationId_nonempty (api : Document) (endpoint : OpenAPIEndpoint) :
  endpoint ∈ endpoints (Parser.extractFromSpec api) ->
  operationId endpoint <> EmptyString.
Proof.
  intros (path & pathItem & m & operation & _ & Hm & _ & ->)%endpoints_provenance.
  unfold Parser.extractEndpoint. simpl. unfold Js.or_string.
  destruct (op_operationId operation) as [[|c id]|]; simpl;
    try by apply synthesized_nonempty.
  discriminate.
Qed.

Lemma extracted_operationId_nonempty_witness :
  "DeleteOrdersById" <> EmptyString.
Proof.
  apply (extracted_operationId_nonempty Samples.ordersApi
           (Parser.extractEndpoint "/Orders/{id}" "DELETE" Samples.operation None)).
  apply (list_elem_of_lookup_2 _ 3). reflexivity.
Defined.

Lemma slotEndpoints_length (path : string) (pathItem : PathItemObject)
    (ms : list string) :
  (length (flat_map (slotEndpoints path pathItem) ms) <= length ms)%nat.
Proof.
  induction ms as [|m ms IH]; [done |]. cbn [flat_map]. rewrite length_app.
  unfold slotEndpoints at 1. destruct (Parser.pathItem_get pathItem m); simpl; lia.
Qed.

(** X6. A document yields at most seven endpoints per path template, and
    none at all when it has no [paths]. *)
Theorem endpoints_bound (api : Document) :
  (length (endpoints (Parser.extractFromSpec api))
   <= 7 * length (default [] (paths api)))%nat.
Proof.
  rewrite extractFromSpec_endpoints.
  induction (default [] (paths api)) as [|entry entries IH]; [done |].
  cbn [flat_map]. rewrite length_app. cbn [length].
  assert (length (entryEndpoints entry) <= 7)%nat; [| lia].
  destruct entry as [path [[ref|pathItem]|]]; simpl; try lia.
  apply (slotEndpoints_length path pathItem Parser.methods).
Qed.

Lemma key_injective (m1 m2 p1 p2 : string) :
  m1 ∈ Parser.methods -> m2 ∈ Parser.methods ->
  Js.toUpperCase m1 +:+ ":" +:+ p1 = Js.toUpperCase m2 +:+ ":" +:+ p2 ->
  m1 = m2 /\ p1 = p2.
Proof.
  unfold Parser.methods. intros H1 H2.
  repeat (apply elem_of_cons in H1 as [->|H1]); try (by apply elem_of_nil in H1);
    repeat (apply elem_of_cons in H2 as [->|H2]); try (by apply elem_of_nil in H2);
    vm_compute; intros [=]; by subst.
Qed.

(** X7. The keys of the endpoints of one extraction are pairwise distinct:
    a [METHOD:path] key names one endpoint. *)
Theorem extracted_keys_unique (api : Document) :
  NoDup (Js.keys (default [] (paths api))) ->
  NoDup (Mapper.getAllEndpointKeys (endpoints (Parser.extractFromSpec api))).
Proof.
  intros Hkeys.
  assert (Mapper.getAllEndpointKeys (endpoints (Parser.extractFromSpec api))
          = (fun s : string * string => s.2 +:+ ":" +:+ s.1)
            <$> map slot (endpoints (Parser.extractFromSpec api))) as ->.
  { unfold Mapper.getAllEndpointKeys. map_as_fmap. by rewrite <- list_fmap_compose. }
  rewrite map_slot_endpoints. apply NoDup_fmap_2_strong; [| by apply declaredSlots_NoDup].
  intros [p1 m1] [p2 m2] (m1' & Hm1 & ->)%declaredSlots_method
    (m2' & Hm2 & ->)%declaredSlots_method Hkey. cbn [fst snd] in Hkey.
  by destruct (key_injective _ _ _ _ Hm1 Hm2 Hkey) as [-> ->].
Qed.

Lemma extracted_keys_unique_witness :
  NoDup ["GET:/Orders"; "POST:/Orders"; "GET:/Orders/{id}"; "DELETE:/Orders/{id}"].
Proof.
  apply (extracted_keys_unique Samples.ordersApi).
  apply (bool_decide_unpack _). by vm_compute.
Defined.

Lemma keptParameters_length (declared : list (OrRef ParameterObject)) :
  (length (keptParameters declared) <= length declared)%nat.
Proof.
  induction declared as [|[ref|p] declared IH]; simpl; lia.
Qed.

(** X8. The parameters of an endpoint are the path item's parameters
    followed by the operation's, each list in its declared order, with the
    reference entries left out and nothing merged or removed by name. *)
Theorem merged_parameters (path method : string) (operation : OperationObject)
    (pathParameters : option (list (OrRef ParameterObject))) :
  let endpoint := Parser.extractEndpoint path method operation pathParameters in
  parameters endpoint
  = keptParameters (default [] pathParameters)
    ++ keptParameters (default [] (op_parameters operation)) /\
  (length (parameters endpoint)
   <= length (default [] pathParameters)
      + length (default [] (op_parameters operation)))%nat /\
  forall q, q ∈ parameters endpoint <->
    exists p, (Resolved p ∈ default [] pathParameters
               \/ Resolved p ∈ default [] (op_parameters operation))
              /\ q = Parser.extractParameter p.
Proof.
  intros endpoint. unfold endpoint. rewrite extractEndpoint_parameters. split_and!.
  - done.
  - rewrite length_app.
    pose proof (keptParameters_length (default [] pathParameters)).
    pose proof (keptParameters_length (default [] (op_parameters operation))). lia.
  - intros q. rewrite elem_of_app, !keptParameters_elem. split.
    + intros [(p & Hp & ->) | (p & Hp & ->)]; exists p; tauto.
    + intros (p & [Hp | Hp] & ->); [left | right]; by exists p.
Qed.

(** X9. The security scheme names of an endpoint are the keys of all the
    requirement objects of the operation, one requirement after the other;
    an operation without [security] has none. *)
Theorem flattened_security (path method : string) (operation : OperationObject)
    (pathParameters : option (list (OrRef ParameterObject))) :
  securitySchemes (Parser.extractEndpoint path method operation pathParameters)
  = flat_map Js.keys (default [] (op_security operation)).
Proof.
  unfold Parser.extractEndpoint. simpl.
  by rewrite (fold_left_pushes _ Js.keys).
Qed.







(** X11. An extracted security scheme keeps the type of the declared one
    and only the fields of that type: [name] and [in] for [apiKey],
    [scheme] and [bearerFormat] for [http], [flows] for [oauth2],
    [openIdConnectUrl] for [openIdConnect], and nothing for any other type. *)
Theorem extractSecurityScheme_fields (scheme : SecuritySchemeObject) :
  let result := Parser.extractSecurityScheme scheme in
  scheme_type result = sso_type scheme /\
  (sso_type scheme = "apiKey" ->
   scheme_name result = sso_name scheme /\ scheme_in result = sso_in scheme) /\
  (sso_type scheme = "http" ->
   scheme_scheme result = sso_scheme scheme
   /\ scheme_bearerFormat result = sso_bearerFormat scheme) /\
  (sso_type scheme = "oauth2" -> scheme_flows result = sso_flows scheme) /\
  (sso_type scheme = "openIdConnect" ->
   scheme_openIdConnectUrl result = sso_openIdConnectUrl scheme) /\
  (sso_type scheme <> "apiKey" -> scheme_name result = None /\ scheme_in result = None) /\
  (sso_type scheme <> "http" ->
   scheme_scheme result = None /\ scheme_bearerFormat result = None) /\
  (sso_type scheme <> "oauth2" -> scheme_flows result = None) /\
  (sso_type scheme <> "openIdConnect" -> scheme_openIdConnectUrl result = None).
Proof.
  unfold Parser.extractSecurityScheme.
  destruct (String.eqb_spec (sso_type scheme) "apiKey") as [Hty|Hkey];
    [rewrite Hty; by split_and! |].
  destruct (String.eqb_spec (sso_type scheme) "http") as [Hty|Hhttp];
    [rewrite Hty; by split_and! |].
  destruct (String.eqb_spec (sso_type scheme) "oauth2") as [Hty|Hoauth].
  { rewrite Hty. destruct (sso_flows scheme) eqn:Hflows; simpl; by split_and!. }
  destruct (String.eqb_spec (sso_type scheme) "openIdConnect") as [Hty|Hoidc].
  { rewrite Hty. destruct (sso_openIdConnectUrl scheme) eqn:Hurl; simpl; by split_and!. }
  simpl. by split_and!.
Qed.

End ExtractionFacts.

(** ** mapper.ts *)

#[local] Set Warnings "-clear-no-such-hyp".

Section MapperFacts.

Lemma filter_implies_sublist {A} (f g : A -> bool) (l : list A) :
  (forall x, f x = true -> g x = true) ->
  List.filter f l `sublist_of` List.filter g l.
Proof.
  intros Hfg. induction l as [|x l IH]; simpl; [done |].
  destruct (f x) eqn:Hf.
  - rewrite (Hfg x Hf). by apply sublist_skip.
  - destruct (g x); [by apply sublist_cons | done].
Qed.

(** X12. Filtering is monotone: enabling more keys only adds tools, in
    place, and every filtered result is a subsequence of the unfiltered
    one. *)
Theorem filtering_monotone (E : list OpenAPIEndpoint) (enabled more : gset string) :
  enabled ⊆ more ->
  Mapper.mapToMcpTools E (Some enabled) `sublist_of` Mapper.mapToMcpTools E (Some more) /\
  Mapper.mapToMcpTools E (Some more) `sublist_of` Mapper.mapToMcpTools E None.
Proof.
  intros Hsub. unfold Mapper.mapToMcpTools.
  split; map_as_fmap; apply fmap_sublist, filter_implies_sublist; [| done].
  intros endpoint Hin. apply bool_decide_eq_true. apply bool_decide_eq_true in Hin.
  by apply Hsub.
Qed.

Lemma filtering_monotone_witness :
  let E := endpoints (Parser.extractFromSpec Samples.ordersApi) in
  Mapper.mapToMcpTools E (Some {["GET:/Orders"]})
  `sublist_of` Mapper.mapToMcpTools E (Some {["GET:/Orders"; "POST:/Orders"]}) /\
  Mapper.mapToMcpTools E (Some {["GET:/Orders"; "POST:/Orders"]})
  `sublist_of` Mapper.mapToMcpTools E None.
Proof.
  intros E. apply (filtering_monotone E). set_solver.
Defined.

(** X13. An empty enabled set is not an absent one: with the empty set no
    tool is returned, with no set at all every endpoint is mapped. *)
Theorem empty_set_disables_all (E : list OpenAPIEndpoint) :
  Mapper.mapToMcpTools E (Some ∅) = [] /\
  Mapper.mapToMcpTools E None = map Mapper.mapEndpointToTool E.
Proof.
  unfold Mapper.mapToMcpTools. split.
  - induction E as [|endpoint E IH]; [done |]. cbn [List.filter Mapper.isEnabled].
    rewrite bool_decide_false by apply not_elem_of_empty. exact IH.
  - f_equal. apply forallb_filter_id, forallb_forall. by intros.
Qed.

Lemma or_string_nonempty (a : option string) (b : string) :
  b <> EmptyString -> Js.or_string a b <> EmptyString.
Proof. intros Hb. by destruct a as [[|c s]|]. Qed.

Lemma append_nonempty (s t : string) : s <> EmptyString -> s +:+ t <> EmptyString.
Proof. by destruct s. Qed.

(** X14. The description of a tool is never empty. It is the summary, or
    ["Executes METHOD path"] when the summary is missing or empty; a
    description that is not empty and differs from the summary follows
    after a blank line, and is left out otherwise. *)
Theorem description_synthesis (endpoint : OpenAPIEndpoint) :
  let base :=
    Js.or_string (summary endpoint)
      ("Executes " +:+ method endpoint +:+ " " +:+ path endpoint) in
  let text := tool_description (Mapper.mapEndpointToTool endpoint) in
  text <> EmptyString /\
  (forall d, description endpoint = Some d -> d <> EmptyString ->
             summary endpoint <> Some d ->
             text = base +:+ JsLib.LF +:+ JsLib.LF +:+ d) /\
  (description endpoint = None \/ description endpoint = Some EmptyString
   \/ description endpoint = summary endpoint ->
   text = base).
Proof.
  intros base text.
  assert (base <> EmptyString) as Hbase by (by apply or_string_nonempty).
  unfold text. cbn [Mapper.mapEndpointToTool tool_description]. fold base.
  split_and!.
  - destruct (description endpoint) as [d|]; [| done].
    destruct (Js.truthy d && negb (bool_decide (summary endpoint = Some d)));
      [by apply append_nonempty | done].
  - intros d -> Hd Hne. destruct d as [|c d]; [done |]. cbn [Js.truthy andb].
    by rewrite bool_decide_false.
  - intros [-> | [-> | Heq]]; [done | done |].
    destruct (description endpoint) as [d|]; [| done].
    rewrite bool_decide_true by done. by rewrite andb_false_r.
Qed.

Lemma obj_get_set_other {V} (o : list (string * V)) (k k' : string) (v : V) :
  k' <> k -> Js.obj_get (Js.obj_set o k v) k' = Js.obj_get o k'.
Proof.
  intros Hne. induction o as [|[k0 v0] o IH]; simpl.
  - by replace (String.eqb k k') with false
      by (symmetry; apply String.eqb_neq; congruence).
  - destruct (String.eqb_spec k0 k) as [->|Hk0]; simpl.
    + by replace (String.eqb k k') with false
        by (symmetry; apply String.eqb_neq; congruence).
    + by rewrite IH.
Qed.

(** X15. The property written for a parameter or for the body is the schema
    with only its description replaced: every other key reads as in the
    schema. For a parameter, a description of the parameter that is not
    empty wins over the schema's own; without one the schema's description
    is kept (as [undefined] when the schema has none). *)
Theorem property_spread (param : EndpointParameter) (body : RequestBodySchema) :
  (forall k, k <> "description" ->
     Js.obj_get (Mapper.paramProperty param) k = Js.obj_get (param_schema param) k) /\
  (forall k, k <> "description" ->
     Js.obj_get (Mapper.bodyProperty body) k = Js.obj_get (body_schema body) k) /\
  (forall d, param_description param = Some d -> d <> EmptyString ->
     Js.obj_get (Mapper.paramProperty param) "description" = Some (Js.Str d)) /\
  (param_description param = None \/ param_description param = Some EmptyString ->
   Js.obj_get (Mapper.paramProperty param) "description"
   = Some (default Js.Undefined (Js.obj_get (param_schema param) "description"))).
Proof.
  unfold Mapper.paramProperty, Mapper.bodyProperty. split_and!.
  - intros k Hk. by apply obj_get_set_other.
  - intros k Hk. by apply obj_get_set_other.
  - intros d -> Hd. destruct d as [|c d]; [done |]. apply obj_get_set.
  - intros [-> | ->]; apply obj_get_set.
Qed.






(** X18. For an extracted endpoint the filter key can be rebuilt from the
    tool alone: the tool's method in upper case, a colon and its path
    template are the key of the endpoint. *)
Theorem tool_key_roundtrip (api : Document) (endpoint : OpenAPIEndpoint) :
  endpoint ∈ endpoints (Parser.extractFromSpec api) ->
  toolKey (Mapper.mapEndpointToTool endpoint) = Mapper.getEndpointKey endpoint.
Proof.
  intros Hupper%extracted_method_upper. unfold toolKey, Mapper.getEndpointKey.
  cbn [Mapper.mapEndpointToTool httpMethod pathTemplate].
  by rewrite toUpperCase_toLowerCase.
Qed.

Lemma tool_key_roundtrip_witness :
  "POST:/Orders" = "POST:/Orders".
Proof.
  apply (tool_key_roundtrip Samples.ordersApi
           (Parser.extractEndpoint "/Orders" "POST" Samples.operation None)).
  apply (list_elem_of_lookup_2 _ 1). reflexivity.
Defined.

End MapperFacts.

(** ** generator.ts: the environment template *)

Section EnvironmentTemplate.

Lemma fold_setAdd_elem (names : list string) (set : list string) (n : string) :
  n ∈ fold_left JsLib.setAdd names set <-> n ∈ set \/ n ∈ names.
Proof.
  revert set. induction names as [|x names IH]; intros set; simpl.
  - rewrite elem_of_nil. tauto.
  - rewrite IH, elem_of_cons. unfold JsLib.setAdd. case_bool_decide as Hx.
    + split; [tauto |]. intros [Hn | [-> | Hn]]; tauto.
    + rewrite elem_of_app, list_elem_of_singleton. tauto.
Qed.

Lemma fold_setAdd_NoDup (names : list string) (set : list string) :
  NoDup set -> NoDup (fold_left JsLib.setAdd names set).
Proof.
  revert set. induction names as [|x names IH]; intros set Hset; simpl; [done |].
  apply IH. unfold JsLib.setAdd. case_bool_decide as Hx; [done |].
  apply NoDup_app. split_and!; [done | | apply NoDup_singleton].
  intros y Hy ->%list_elem_of_singleton. by apply Hx.
Qed.

Lemma usedSchemes_fold (tools : list McpToolDefinition) (set : list string) :
  NoDup set ->
  NoDup (fold_left (fun used tool =>
                      fold_left JsLib.setAdd (tool_securitySchemes tool) used)
           tools set) /\
  forall n,
    n ∈ fold_left (fun used tool =>
                     fold_left JsLib.setAdd (tool_securitySchemes tool) used)
          tools set
    <-> n ∈ set \/ exists tool, tool ∈ tools /\ n ∈ tool_securitySchemes tool.
Proof.
  revert set. induction tools as [|t tools IH]; intros set Hset; simpl.
  - split; [done |]. intros n. split; [tauto |].
    intros [Hn | (tool & Htool & _)]; [done | by apply elem_of_nil in Htool].
  - destruct (IH _ (fold_setAdd_NoDup (tool_securitySchemes t) set Hset))
      as [Hnodup Helem].
    split; [done |]. intros n. rewrite Helem, fold_setAdd_elem. split.
    + intros [[Hn | Hn] | (tool & Htool & Hn)]; [tauto | |].
      * right. exists t. split; [by left | done].
      * right. exists tool. split; [by right | done].
    + intros [Hn | (tool & [-> | Htool]%elem_of_cons & Hn)]; [tauto | tauto |].
      right. by exists tool.
Qed.

Lemma usedSchemes_elem (tools : list McpToolDefinition) (n : string) :
  n ∈ EnvExample.usedSchemes tools
  <-> exists tool, tool ∈ tools /\ n ∈ tool_securitySchemes tool.
Proof.
  unfold EnvExample.usedSchemes.
  destruct (usedSchemes_fold tools [] (NoDup_nil_2)) as [_ Helem].
  rewrite Helem, elem_of_nil. tauto.
Qed.

(** X19. The set of used schemes holds each scheme name that some tool
    references, once, however many tools reference it, and no other name. *)
Theorem usedSchemes_exact (tools : list McpToolDefinition) :
  NoDup (EnvExample.usedSchemes tools) /\
  forall n, n ∈ EnvExample.usedSchemes tools
            <-> exists tool, tool ∈ tools /\ n ∈ tool_securitySchemes tool.
Proof.
  split; [| apply usedSchemes_elem].
  apply (usedSchemes_fold tools [] (NoDup_nil_2)).
Qed.

Lemma addCredential_pushes (securitySchemes : list (string * SecurityScheme))
    (lines : list string) (schemeName : string) :
  EnvExample.addCredential securitySchemes lines schemeName
  = lines ++ credentialLine securitySchemes schemeName.
Proof.
  unfold credentialLine, EnvExample.addCredential, Js.push.
  destruct (Js.obj_get securitySchemes schemeName) as [scheme|];
    [| by rewrite app_nil_r].
  destruct (String.eqb (scheme_type scheme) "apiKey"); [done |].
  destruct (String.eqb (scheme_type scheme) "http" && _); [done |].
  by rewrite app_nil_r.
Qed.

(** The template, loop-free: the lines written for no tool at all, then the
    credentials section when some used scheme is not an OAuth one. *)
Lemma envExampleLines_unfold (tools : list McpToolDefinition)
    (securitySchemes : list (string * SecurityScheme))
    (options : Generator.GeneratorOptions) :
  EnvExample.envExampleLines tools securitySchemes options
  = EnvExample.envExampleLines [] [] options
    ++ (if existsb (EnvExample.isNonOAuth securitySchemes) (EnvExample.usedSchemes tools)
        then [ EmptyString; "# Security Credentials" ]
             ++ flat_map (credentialLine securitySchemes) (EnvExample.usedSchemes tools)
        else []).
Proof.
  unfold EnvExample.envExampleLines at 1 2.
  change (existsb (EnvExample.isNonOAuth []) (EnvExample.usedSchemes [])) with false.
  cbv iota.
  destruct (existsb _ _); [| by rewrite app_nil_r].
  rewrite (fold_left_pushes _ (credentialLine securitySchemes))
    by apply addCredential_pushes.
  by rewrite <- app_assoc.
Qed.

Lemma existsb_agree {A} (f g : A -> bool) (l : list A) :
  (forall x, x ∈ l -> f x = g x) -> existsb f l = existsb g l.
Proof.
  induction l as [|x l IH]; [done |]. intros Hfg. simpl.
  rewrite (Hfg x) by (by left). f_equal. apply IH. intros y Hy. apply Hfg. by right.
Qed.

Lemma flat_map_agree {A B} (f g : A -> list B) (l : list A) :
  (forall x, x ∈ l -> f x = g x) -> flat_map f l = flat_map g l.
Proof.
  induction l as [|x l IH]; [done |]. intros Hfg. simpl.
  rewrite (Hfg x) by (by left). f_equal. apply IH. intros y Hy. apply Hfg. by right.
Qed.

(** X20. Only the schemes that some tool references matter: two scheme
    tables that agree on every referenced name give the same template, so
    a scheme no tool references produces no line. *)
Theorem env_ignores_unused (tools : list McpToolDefinition)
    (schemes1 schemes2 : list (string * SecurityScheme))
    (options : Generator.GeneratorOptions) :
  (forall tool n, tool ∈ tools -> n ∈ tool_securitySchemes tool ->
                  Js.obj_get schemes1 n = Js.obj_get schemes2 n) ->
  EnvExample.generateEnvExample tools schemes1 options
  = EnvExample.generateEnvExample tools schemes2 options.
Proof.
  intros Hagree. unfold EnvExample.generateEnvExample. f_equal.
  assert (forall n, n ∈ EnvExample.usedSchemes tools ->
                    Js.obj_get schemes1 n = Js.obj_get schemes2 n) as Hused.
  { intros n (tool & Htool & Hn)%usedSchemes_elem. by apply (Hagree tool). }
  rewrite (envExampleLines_unfold tools schemes1), (envExampleLines_unfold tools schemes2).
  f_equal.
  rewrite (existsb_agree (EnvExample.isNonOAuth schemes1) (EnvExample.isNonOAuth schemes2)).
  - destruct (existsb _ _); [| done]. f_equal. apply flat_map_agree.
    intros n Hn. unfold credentialLine, EnvExample.addCredential. by rewrite (Hused n Hn).
  - intros n Hn. unfold EnvExample.isNonOAuth. by rewrite (Hused n Hn).
Qed.

Lemma env_ignores_unused_witness :
  EnvExample.generateEnvExample [Fixtures.tool "getSecure" ["bearerAuth"]]
    (parsed_securitySchemes (Parser.extractFromSpec Fixtures.securedApi))
    Fixtures.options
  = EnvExample.generateEnvExample [Fixtures.tool "getSecure" ["bearerAuth"]]
      [("bearerAuth", Parser.extractSecurityScheme Fixtures.bearerScheme)]
      Fixtures.options.
Proof.
  apply env_ignores_unused.
  intros tool n ->%list_elem_of_singleton ->%list_elem_of_singleton. reflexivity.
Defined.



Lemma existsb_elem {A} (f : A -> bool) (l : list A) (x : A) :
  x ∈ l -> f x = true -> existsb f l = true.
Proof.
  intros Hx Hf. apply existsb_exists. exists x. by rewrite <- list_elem_of_In.
Qed.

(** X22. A scheme that a tool references and the table knows gets its
    line in the credentials section: [API_KEY_<KEY>=your-api-key] for an
    [apiKey] scheme, [BEARER_TOKEN_<KEY>=your-bearer-token] for an [http]
    scheme with the [bearer] scheme, where [<KEY>] is the scheme name with
    every character outside [a-zA-Z0-9] replaced by an underscore, in upper
    case. *)
Theorem env_credentials_present (tools : list McpToolDefinition)
    (securitySchemes : list (string * SecurityScheme))
    (options : Generator.GeneratorOptions)
    (tool : McpToolDefinition) (n : string) (scheme : SecurityScheme) :
  tool ∈ tools -> n ∈ tool_securitySchemes tool ->
  Js.obj_get securitySchemes n = Some scheme ->
  (scheme_type scheme = "apiKey" ->
   "# Security Credentials" ∈ EnvExample.envExampleLines tools securitySchemes options /\
   ("API_KEY_" +:+ EnvExample.envKey n +:+ "=your-api-key")
   ∈ EnvExample.envExampleLines tools securitySchemes options) /\
  (scheme_type scheme = "http" -> scheme_scheme scheme = Some "bearer" ->
   "# Security Credentials" ∈ EnvExample.envExampleLines tools securitySchemes options /\
   ("BEARER_TOKEN_" +:+ EnvExample.envKey n +:+ "=your-bearer-token")
   ∈ EnvExample.envExampleLines tools securitySchemes options).
Proof.
  intros Htool Hn Hget.
  assert (n ∈ EnvExample.usedSchemes tools) as Hused
    by (apply usedSchemes_elem; by exists tool).
  rewrite envExampleLines_unfold.
  assert (forall line,
            scheme_type scheme <> "oauth2" ->
            line ∈ credentialLine securitySchemes n ->
            "# Security Credentials"
            ∈ EnvExample.envExampleLines [] [] options
              ++ (if existsb (EnvExample.isNonOAuth securitySchemes)
                       (EnvExample.usedSchemes tools)
                  then [ EmptyString; "# Security Credentials" ]
                       ++ flat_map (credentialLine securitySchemes)
                            (EnvExample.usedSchemes tools)
                  else [])
            /\ line
               ∈ EnvExample.envExampleLines [] [] options
                 ++ (if existsb (EnvExample.isNonOAuth securitySchemes)
                          (EnvExample.usedSchemes tools)
                     then [ EmptyString; "# Security Credentials" ]
                          ++ flat_map (credentialLine securitySchemes)
                               (EnvExample.usedSchemes tools)
                     else [])) as Hline.
  { intros line Hty Hin.
    rewrite (existsb_elem _ _ n Hused).
    - split; apply elem_of_app; right.
      + right. by left.
      + right. right. apply list_elem_of_In, in_flat_map. exists n.
        by rewrite <- !list_elem_of_In.
    - unfold EnvExample.isNonOAuth. rewrite Hget.
      apply negb_true_iff, String.eqb_neq. done. }
  split.
  - intros Hty. apply Hline; [by rewrite Hty |].
    unfold credentialLine, EnvExample.addCredential. rewrite Hget, Hty. by left.
  - intros Hty Hbearer. apply Hline; [by rewrite Hty |].
    unfold credentialLine, EnvExample.addCredential. rewrite Hget, Hty, Hbearer. by left.
Qed.

Lemma env_credentials_present_witness :
  "BEARER_TOKEN_BEARERAUTH=your-bearer-token"
  ∈ EnvExample.envExampleLines [Fixtures.tool "getSecure" ["bearerAuth"]]
      [("bearerAuth", Parser.extractSecurityScheme Fixtures.bearerScheme)]
      Fixtures.options.
Proof.
  apply (env_credentials_present [Fixtures.tool "getSecure" ["bearerAuth"]]
           [("bearerAuth", Parser.extractSecurityScheme Fixtures.bearerScheme)]
           Fixtures.options (Fixtures.tool "getSecure" ["bearerAuth"]) "bearerAuth"
           (Parser.extractSecurityScheme Fixtures.bearerScheme)).
  - by left.
  - by left.
  - reflexivity.
  - reflexivity.
  - reflexivity.
Defined.

(** X23. Nothing else enters the template: a line is one of the lines
    generated for no tools, an empty line or the credentials heading, or the
    credential line of a scheme that some tool references and the table
    holds with type [apiKey], or with type [http] and scheme [bearer]. *)
Theorem env_lines_sound (tools : list McpToolDefinition)
    (securitySchemes : list (string * SecurityScheme))
    (options : Generator.GeneratorOptions) (line : string) :
  line ∈ EnvExample.envExampleLines tools securitySchemes options ->
  line ∈ EnvExample.envExampleLines [] [] options
  \/ line = EmptyString \/ line = "# Security Credentials"
  \/ exists tool n scheme,
       tool ∈ tools /\ n ∈ tool_securitySchemes tool /\
       Js.obj_get securitySchemes n = Some scheme /\
       ((scheme_type scheme = "apiKey"
         /\ line = "API_KEY_" +:+ EnvExample.envKey n +:+ "=your-api-key")
        \/ (scheme_type scheme = "http" /\ scheme_scheme scheme = Some "bearer"
            /\ line = "BEARER_TOKEN_" +:+ EnvExample.envKey n +:+ "=your-bearer-token")).
Proof.
  rewrite envExampleLines_unfold, elem_of_app. intros [Hbase | Hcred]; [by left |].
  destruct (existsb _ _); [| by apply elem_of_nil in Hcred].
  apply elem_of_app in Hcred as [Hhead | Hcred].
  { apply elem_of_cons in Hhead as [-> | Hhead]; [tauto |].
    apply list_elem_of_singleton in Hhead. tauto. }
  apply list_elem_of_In, in_flat_map in Hcred as (n & Hn & Hline).
  apply list_elem_of_In, usedSchemes_elem in Hn as (tool & Htool & Hn).
  unfold credentialLine, EnvExample.addCredential, Js.push in Hline.
  destruct (Js.obj_get securitySchemes n) as [scheme|] eqn:Hget; [| done].
  right. right. right. exists tool, n, scheme. split_and!; [done | done | done |].
  destruct (String.eqb_spec (scheme_type scheme) "apiKey") as [Hty|_].
  - destruct Hline as [<- | []]. by left.
  - destruct (String.eqb_spec (scheme_type scheme) "http") as [Hty|_]; [| done].
    cbn [andb] in Hline. case_bool_decide as Hbearer; [| done].
    destruct Hline as [<- | []]. by right.
Qed.

Lemma env_lines_sound_witness :
  "PORT=3000" ∈ EnvExample.envExampleLines [] [] Fixtures.options
  \/ "PORT=3000" = EmptyString \/ "PORT=3000" = "# Security Credentials"
  \/ exists tool n scheme,
       tool ∈ [Fixtures.tool "getSecure" ["bearerAuth"]] /\
       n ∈ tool_securitySchemes tool /\
       Js.obj_get [("bearerAuth", Parser.extractSecurityScheme Fixtures.bearerScheme)] n
       = Some scheme /\
       ((scheme_type scheme = "apiKey"
         /\ "PORT=3000" = "API_KEY_" +:+ EnvExample.envKey n +:+ "=your-api-key")
        \/ (scheme_type scheme = "http" /\ scheme_scheme scheme = Some "bearer"
            /\ "PORT=3000"
               = "BEARER_TOKEN_" +:+ EnvExample.envKey n +:+ "=your-bearer-token")).
Proof.
  apply (env_lines_sound [Fixtures.tool "getSecure" ["bearerAuth"]]
           [("bearerAuth", Parser.extractSecurityScheme Fixtures.bearerScheme)]
           Fixtures.options "PORT=3000").
  do 11 right. by left.
Defined.

Lemma env_char (c : ascii) :
  is_env_char (Js.upper_char (if JsLib.is_alnum c then c else "_"%char)) = true.
Proof. destruct c as [[] [] [] [] [] [] [] []]; by vm_compute. Qed.

Lemma env_char_fixed (c : ascii) :
  is_env_char c = true ->
  Js.upper_char (if JsLib.is_alnum c then c else "_"%char) = c.
Proof. destruct c as [[] [] [] [] [] [] [] []]; by vm_compute. Qed.

Lemma envKey_chars (n : string) : everyChar is_env_char (EnvExample.envKey n) = true.
Proof.
  unfold EnvExample.envKey. induction n as [|c n IH]; [done |]. simpl.
  by rewrite env_char, IH.
Qed.

Lemma envKey_fixed (key : string) :
  everyChar is_env_char key = true -> EnvExample.envKey key = key.
Proof.
  unfold EnvExample.envKey. induction key as [|c key IH]; [done |]. simpl.
  intros [Hc Hkey]%andb_true_iff. by rewrite env_char_fixed, IH.
Qed.

(** X24. The environment key of a scheme name has the length of the name,
    consists of upper-case letters, digits and underscores only, and is its
    own key: deriving a key twice changes nothing. *)
Theorem envKey_shape (n : string) :
  String.length (EnvExample.envKey n) = String.length n /\
  everyChar is_env_char (EnvExample.envKey n) = true /\
  EnvExample.envKey (EnvExample.envKey n) = EnvExample.envKey n.
Proof.
  split_and!.
  - unfold EnvExample.envKey. induction n as [|c n IH]; [done |]. simpl. by rewrite IH.
  - apply envKey_chars.
  - apply envKey_fixed, envKey_chars.
Qed.

Lemma everyChar_app (ok : ascii -> bool) (s t : string) :
  everyChar ok (s +:+ t) = everyChar ok s && everyChar ok t.
Proof.
  induction s as [|c s IH]; [done |]. simpl. by rewrite IH, andb_assoc.
Qed.

Lemma everyChar_weaken (ok ok' : ascii -> bool) (s : string) :
  (forall c, ok c = true -> ok' c = true) ->
  everyChar ok s = true -> everyChar ok' s = true.
Proof.
  intros Hok. induction s as [|c s IH]; [done |]. simpl.
  intros [Hc Hs]%andb_true_iff. by rewrite (Hok c Hc), IH.
Qed.

Lemma env_char_notLF (c : ascii) : is_env_char c = true -> notLF c = true.
Proof. destruct c as [[] [] [] [] [] [] [] []]; by vm_compute. Qed.

Lemma split_unbroken (s : string) :
  everyChar notLF s = true -> Js.split (ascii_of_nat 10) s = [s].
Proof.
  induction s as [|c s IH]; [done |]. simpl. unfold notLF at 1.
  intros [Hc Hs]%andb_true_iff. apply negb_true_iff in Hc. by rewrite Hc, IH.
Qed.

Lemma split_broken (a b : string) :
  Js.split (ascii_of_nat 10) (a +:+ JsLib.LF +:+ b)
  = Js.split (ascii_of_nat 10) a ++ Js.split (ascii_of_nat 10) b.
Proof.
  induction a as [|c a IH]; [done |].
  change (String c a +:+ JsLib.LF +:+ b) with (String c (a +:+ JsLib.LF +:+ b)).
  cbn [Js.split]. rewrite IH.
  destruct (split_cons (ascii_of_nat 10) a) as (w & ws & ->).
  by destruct (Ascii.eqb c (ascii_of_nat 10)).
Qed.

(** Joining lines that hold no line feed and splitting again gives the
    lines back. *)
Lemma split_joinWith (lines : list string) :
  lines <> [] ->
  Forall (fun line => everyChar notLF line = true) lines ->
  Js.split (ascii_of_nat 10) (JsLib.joinWith JsLib.LF lines) = lines.
Proof.
  induction lines as [|x lines IH]; [done |]. intros _ [Hx Hlines]%Forall_cons.
  destruct lines as [|y lines]; [by apply split_unbroken |].
  change (JsLib.joinWith JsLib.LF (x :: y :: lines))
    with (x +:+ JsLib.LF +:+ JsLib.joinWith JsLib.LF (y :: lines)).
  rewrite split_broken, split_unbroken by done. by rewrite IH.
Qed.

Lemma credentialLine_unbroken (securitySchemes : list (string * SecurityScheme))
    (n : string) :
  Forall (fun line => everyChar notLF line = true) (credentialLine securitySchemes n).
Proof.
  assert (everyChar notLF (EnvExample.envKey n) = true) as Hkey
    by (apply (everyChar_weaken is_env_char), envKey_chars; apply env_char_notLF).
  unfold credentialLine, EnvExample.addCredential, Js.push.
  destruct (Js.obj_get securitySchemes n) as [scheme|]; [| constructor].
  destruct (String.eqb (scheme_type scheme) "apiKey").
  { repeat constructor. by rewrite !everyChar_app, Hkey. }
  destruct (String.eqb (scheme_type scheme) "http" && _); [| constructor].
  repeat constructor. by rewrite !everyChar_app, Hkey.
Qed.

(** X25. The template is its lines: when the base URL and the authorization
    server URL hold no line feed, splitting the generated text at the line
    feeds gives back exactly the lines that were written, in order. *)
Theorem env_file_lines (tools : list McpToolDefinition)
    (securitySchemes : list (string * SecurityScheme))
    (options : Generator.GeneratorOptions) :
  everyChar notLF (Generator.opt_baseUrl options) = true ->
  (forall url, EnvExample.authorizationServer options = Some url ->
               everyChar notLF url = true) ->
  Js.split (ascii_of_nat 10)
    (EnvExample.generateEnvExample tools securitySchemes options)
  = EnvExample.envExampleLines tools securitySchemes options.
Proof.
  intros Hbase Hurl. unfold EnvExample.generateEnvExample. apply split_joinWith.
  { rewrite envExampleLines_unfold. unfold EnvExample.envExampleLines.
    by destruct (EnvExample.authorizationServer options). }
  rewrite envExampleLines_unfold. apply Forall_app. split.
  - unfold EnvExample.envExampleLines.
    change (existsb (EnvExample.isNonOAuth []) (EnvExample.usedSchemes [])) with false.
    cbv iota.
    destruct (EnvExample.authorizationServer options) as [url|] eqn:Hauth.
    + specialize (Hurl url eq_refl).
      repeat (apply Forall_cons; split); try apply Forall_nil; try done;
        by rewrite everyChar_app, ?Hbase, ?Hurl.
    + repeat (apply Forall_cons; split); try apply Forall_nil; try done;
        by rewrite everyChar_app, ?Hbase.
  - destruct (existsb _ _); [| constructor].
    repeat (apply Forall_cons; split; [done |]).
    induction (EnvExample.usedSchemes tools) as [|n used IH]; [constructor |].
    cbn [flat_map]. apply Forall_app. split; [apply credentialLine_unbroken | done].
Qed.

Lemma env_file_lines_witness :
  Js.split (ascii_of_nat 10)
    (EnvExample.generateEnvExample [Fixtures.tool "getSecure" ["bearerAuth"]]
       [("bearerAuth", Parser.extractSecurityScheme Fixtures.bearerScheme)]
       Fixtures.oauthOptions)
  = EnvExample.envExampleLines [Fixtures.tool "getSecure" ["bearerAuth"]]
      [("bearerAuth", Parser.extractSecurityScheme Fixtures.bearerScheme)]
      Fixtures.oauthOptions.
Proof.
  apply env_file_lines.
  - reflexivity.
  - intros url [= <-]. reflexivity.
Defined.

End EnvironmentTemplate.

(** ** cli.ts: slugify *)

Section Slugify.

Lemma slug_char_not_dash (c : ascii) :
  Cli.is_slug_char c = true -> Ascii.eqb c "-" = false.
Proof. destruct c as [[] [] [] [] [] [] [] []]; by vm_compute. Qed.

Lemma slug_out_lower (c : ascii) : is_slug_out c = true -> Js.lower_char c = c.
Proof. destruct c as [[] [] [] [] [] [] [] []]; by vm_compute. Qed.

Lemma wellDashed_weaken (b : bool) (s : string) :
  wellDashed b s = true -> wellDashed false s = true.
Proof.
  destruct s as [|c s]; [done |]. simpl. destruct (Ascii.eqb c "-"); [| done].
  by intros [_ ->]%andb_true_iff.
Qed.

Lemma wellDashed_chars (b : bool) (s : string) :
  wellDashed b s = true -> everyChar is_slug_out s = true.
Proof.
  revert b. induction s as [|c s IH]; intros b; [done |]. simpl. unfold is_slug_out at 1.
  destruct (Ascii.eqb c "-").
  - intros [_ Hs]%andb_true_iff. rewrite orb_true_r. by apply (IH true).
  - intros [-> Hs]%andb_true_iff. by apply (IH false).
Qed.

Lemma replaceRuns_wellDashed (b : bool) (s : string) :
  wellDashed b (Cli.replaceRuns b s) = true.
Proof.
  revert b. induction s as [|c s IH]; intros b; [done |]. simpl.
  destruct (Cli.is_slug_char c) eqn:Hc.
  - simpl. by rewrite (slug_char_not_dash c Hc), Hc, IH.
  - destruct b; [apply IH |]. simpl. apply IH.
Qed.

Lemma replaceRuns_fixed (b : bool) (s : string) :
  wellDashed b s = true -> Cli.replaceRuns b s = s.
Proof.
  revert b. induction s as [|c s IH]; intros b; [done |]. simpl.
  destruct (Ascii.eqb_spec c "-") as [->|Hc].
  - intros [Hb Hs]%andb_true_iff. apply negb_true_iff in Hb. subst b.
    change (Cli.is_slug_char "-") with false. cbv iota. by rewrite IH.
  - intros [-> Hs]%andb_true_iff. by rewrite IH.
Qed.

Lemma toLowerCase_fixed (s : string) :
  everyChar is_slug_out s = true -> Js.toLowerCase s = s.
Proof.
  induction s as [|c s IH]; [done |]. simpl. intros [Hc Hs]%andb_true_iff.
  by rewrite slug_out_lower, IH.
Qed.

Lemma stripLeadingDash_wellDashed (s : string) :
  wellDashed false s = true -> wellDashed true (Cli.stripLeadingDash s) = true.
Proof.
  destruct s as [|c s]; [done |]. simpl. destruct (Ascii.eqb c "-") eqn:Hc.
  - intros Hs. destruct s as [|d s]; [done |]. simpl in *.
    destruct (Ascii.eqb d "-"); [done |]. done.
  - intros Hs. simpl. by rewrite Hc.
Qed.

Lemma stripTrailingDash_wellDashed (b : bool) (s : string) :
  wellDashed b s = true -> wellDashed b (Cli.stripTrailingDash s) = true.
Proof.
  revert b. induction s as [|c s IH]; intros b; [done |].
  destruct s as [|d s].
  - simpl. destruct (Ascii.eqb c "-") eqn:Hc; [done |]. simpl. by rewrite Hc.
  - change (Cli.stripTrailingDash (String c (String d s)))
      with (String c (Cli.stripTrailingDash (String d s))).
    cbn [wellDashed]. destruct (Ascii.eqb c "-").
    + intros [-> Hs]%andb_true_iff. by rewrite (IH true).
    + intros [-> Hs]%andb_true_iff. by rewrite (IH false).
Qed.

Lemma stripTrailingDash_ends (b : bool) (s : string) :
  wellDashed b s = true -> endsDash (Cli.stripTrailingDash s) = false.
Proof.
  revert b. induction s as [|c s IH]; intros b; [done |].
  destruct s as [|d s].
  - simpl. destruct (Ascii.eqb c "-") eqn:Hc; [done |]. simpl. done.
  - change (Cli.stripTrailingDash (String c (String d s)))
      with (String c (Cli.stripTrailingDash (String d s))).
    intros Hs.
    assert (wellDashed (Ascii.eqb c "-") (String d s) = true
            /\ (Ascii.eqb c "-" = true -> Ascii.eqb d "-" = false)) as [Hrest Hcd].
    { cbn [wellDashed] in Hs. destruct (Ascii.eqb c "-").
      - apply andb_true_iff in Hs as [_ Hs]. split; [done |]. intros _.
        simpl in Hs. by destruct (Ascii.eqb d "-").
      - apply andb_true_iff in Hs as [_ Hs]. by split. }
    pose proof (IH _ Hrest) as Hends.
    destruct (Cli.stripTrailingDash (String d s)) as [|e r] eqn:Hstrip; [| done].
    simpl. destruct (Ascii.eqb c "-") eqn:Hc; [| done]. exfalso.
    destruct s as [|f s].
    + simpl in Hstrip. rewrite Hcd in Hstrip by done. done.
    + done.
Qed.

Lemma stripTrailingDash_fixed (s : string) :
  endsDash s = false -> Cli.stripTrailingDash s = s.
Proof.
  induction s as [|c s IH]; [done |]. destruct s as [|d s].
  - simpl. by intros ->.
  - intros Hs. change (Cli.stripTrailingDash (String c (String d s)))
      with (String c (Cli.stripTrailingDash (String d s))).
    by rewrite IH.
Qed.

Lemma stripLeadingDash_fixed (s : string) :
  wellDashed true s = true -> Cli.stripLeadingDash s = s.
Proof.
  destruct s as [|c s]; [done |]. simpl. by destruct (Ascii.eqb c "-").
Qed.

(** What [slugify] returns: slug characters, no dash in front, none at the
    end, no two in a row. *)
Lemma slugify_wellDashed (text : string) :
  wellDashed true (Cli.slugify text) = true /\ endsDash (Cli.slugify text) = false.
Proof.
  unfold Cli.slugify.
  pose proof (replaceRuns_wellDashed false (Js.toLowerCase text)) as Hruns.
  apply stripLeadingDash_wellDashed in Hruns. split.
  - by apply stripTrailingDash_wellDashed.
  - by apply (stripTrailingDash_ends true).
Qed.

Lemma endsDash_snoc (r : string) : endsDash (r +:+ "-") = true.
Proof.
  induction r as [|c r IH]; [done |].
  change (String c r +:+ "-") with (String c (r +:+ "-")).
  destruct (r +:+ "-") eqn:Hr; [by destruct r | done].
Qed.

Lemma wellDashed_no_double (b : bool) (x y : string) :
  wellDashed b (x +:+ "--" +:+ y) = false.
Proof.
  revert b. induction x as [|c x IH]; intros b.
  - simpl. by rewrite andb_false_r.
  - change (String c x +:+ "--" +:+ y) with (String c (x +:+ "--" +:+ y)).
    cbn [wellDashed]. destruct (Ascii.eqb c "-"); rewrite IH; apply andb_false_r.
Qed.

(** X26. A slug consists of lower-case letters, digits and dashes only; it
    neither starts nor ends with a dash and has no two dashes in a row. *)
Theorem slugify_shape (text : string) :
  everyChar is_slug_out (Cli.slugify text) = true /\
  (forall r, Cli.slugify text <> "-" +:+ r) /\
  (forall r, Cli.slugify text <> r +:+ "-") /\
  (forall x y, Cli.slugify text <> x +:+ "--" +:+ y).
Proof.
  destruct (slugify_wellDashed text) as [Hshape Hends]. split_and!.
  - by apply (wellDashed_chars true).
  - intros r Heq. rewrite Heq in Hshape. done.
  - intros r Heq. rewrite Heq, endsDash_snoc in Hends. done.
  - intros x y Heq. rewrite Heq, wellDashed_no_double in Hshape. done.
Qed.

(** X27. Slugifying is idempotent: a slug is its own slug. *)
Theorem slugify_idempotent (text : string) :
  Cli.slugify (Cli.slugify text) = Cli.slugify text.
Proof.
  destruct (slugify_wellDashed text) as [Hshape Hends].
  unfold Cli.slugify at 1.
  rewrite toLowerCase_fixed by (by apply (wellDashed_chars true)).
  rewrite replaceRuns_fixed by (by apply (wellDashed_weaken true)).
  by rewrite stripLeadingDash_fixed, stripTrailingDash_fixed.
Qed.






End Slugify.

(** ** The pipeline: extraction, then mapping *)

Section Pipeline.

(** X29. For a document none of whose operations has an explicit
    identifier, the names of the tools are the synthesized identifiers of the
    declared (path, method) slots, in extraction order. *)
Theorem tool_names_synthesized (api : Document) :
  (forall path pathItem method operation,
     (path, Some (Resolved pathItem)) ∈ default [] (paths api) ->
     Parser.pathItem_get pathItem method = Some operation ->
     op_operationId operation = None) ->
  map name (Mapper.mapToMcpTools (endpoints (Parser.extractFromSpec api)) None)
  = map (fun s : string * string => Parser.generateOperationId s.2 s.1)
      (declaredSlots api).
Proof.
  intros Hnone. rewrite <- map_slot_endpoints. unfold Mapper.mapToMcpTools.
  rewrite (forallb_filter_id (Mapper.isEnabled None))
    by (apply forallb_forall; by intros).
  rewrite !map_map. apply map_ext_in. intros endpoint Hin.
  apply list_elem_of_In, (extraction_synthesized api endpoint Hnone) in Hin.
  exact Hin.
Qed.

Lemma tool_names_synthesized_witness :
  map name
    (Mapper.mapToMcpTools (endpoints (Parser.extractFromSpec Samples.ordersApi)) None)
  = ["GetOrders"; "PostOrders"; "GetOrdersById"; "DeleteOrdersById"].
Proof.
  apply (tool_names_synthesized Samples.ordersApi).
  intros path pathItem method operation Hentry Hop.
  simpl in Hentry.
  repeat (apply elem_of_cons in Hentry as [[= -> ->]|Hentry]);
    [ | | by apply elem_of_nil in Hentry ].
  - unfold Parser.pathItem_get, Samples.pathItem in Hop. cbn in Hop.
    repeat (destruct (String.eqb method _) in Hop);
      first [discriminate Hop | by injection Hop as <-].
  - unfold Parser.pathItem_get, Samples.pathItem in Hop. cbn in Hop.
    repeat (destruct (String.eqb method _) in Hop);
      first [discriminate Hop | by injection Hop as <-].
Defined.

End Pipeline.
